(** * Damping operators of geomagnetic_field_inversions

    A shallow embedding of [damping_modules/damping.py]: the overlap
    integrator of cubic B-splines, the block-banded damping matrix and the
    damping norm.

    Modelling decisions.
    - Python [int] is [Z].
    - Python/NumPy floating-point numbers are modelled by exact rationals in
      canonical form ([Qc]), without rounding, [inf] and [nan]. Where the
      rounding of binary64 decides (the symmetry of the matrix and its
      linearity in the damping factor), [integrator] and [damp_matrix] are
      also given over Rocq's primitive binary64 floats ([Binary64]) and run
      there, and the theorems state the entries as the products that the
      code forms, in its order.
    - NumPy arrays are lists (one-dimensional) and lists of rows
      (two-dimensional, rectangular).
    - Python exceptions are the [Raise] results of a small error monad.
    - The three collaborators that are not part of [damping.py]
      ([scipy.integrate.newton_cotes], [tools.bsplines.derivatives] and
      [damp_types.dampingtype]) are parameters of the development. *)

From Stdlib Require Import PrimFloat.
From Stdlib Require Uint63.
From Stdlib Require Import ZArith QArith Qcanon Lia.
From stdpp Require Import base tactics option list numbers.

Local Open Scope Z_scope.

(** ** Exceptions and the error monad *)

Inductive exn : Type :=
| ValueError
| IndexError
| ZeroDivisionError
| CollaboratorError.

Inductive result (A : Type) : Type :=
| Ok (a : A)
| Raise (e : exn).

Arguments Ok {A} a.
Arguments Raise {A} e.

#[global] Instance result_bind : MBind result :=
  fun A B (k : A -> result B) (m : result A) =>
    match m with
    | Ok a => k a
    | Raise e => Raise e
    end.

#[global] Instance result_ret : MRet result := fun A (a : A) => Ok a.

#[global] Instance result_fmap : FMap result :=
  fun A B (f : A -> B) (m : result A) =>
    match m with
    | Ok a => Ok (f a)
    | Raise e => Raise e
    end.

(** [for x in l: s = f(s, x)], where the body may raise. *)
Fixpoint foldM {A S : Type} (f : S -> A -> result S) (l : list A) (s : S)
  : result S :=
  match l with
  | [] => Ok s
  | x :: l' => s' ← f s x; foldM f l' s'
  end.

(** Python's [range(a, b)]. *)
Definition range (a b : Z) : list Z := seqZ a (b - a).

(** ** NumPy arrays *)

Abbreviation vector := (list Qc).
Abbreviation ndarray2 := (list (list Qc)).

Definition shape0 (a : ndarray2) : Z := Z.of_nat (length a).
Definition shape1 (a : ndarray2) : Z := Z.of_nat (length (hd [] a)).

(** [a[i]] for a Python integer [i]: negative indices count from the end,
    anything outside [-len, len) raises [IndexError]. *)
Definition np_index {A : Type} (a : list A) (i : Z) : result A :=
  let n := Z.of_nat (length a) in
  let j := if i <? 0 then i + n else i in
  if (0 <=? j) && (j <? n) then
    match a !! Z.to_nat j with
    | Some x => Ok x
    | None => Raise IndexError
    end
  else Raise IndexError.

(** [a[r, c]] on a two-dimensional array. *)
Definition np_index2 (a : ndarray2) (r c : Z) : result Qc :=
  row ← np_index a r; np_index row c.

(** [np.zeros(n)] and [np.zeros((r, c))]: negative dimensions are refused. *)
Definition np_zeros (n : Z) : result vector :=
  if n <? 0 then Raise ValueError else Ok (replicate (Z.to_nat n) 0%Qc).

Definition np_zeros2 (r c : Z) : result ndarray2 :=
  if (r <? 0) || (c <? 0) then Raise ValueError
  else Ok (replicate (Z.to_nat r) (replicate (Z.to_nat c) 0%Qc)).

(** [np.diag(v)] of a one-dimensional [v]. *)
Definition np_diag (v : vector) : ndarray2 :=
  imap (fun k x => <[k := x]> (replicate (length v) 0%Qc)) v.

(** [s * a] for a scalar [s] and a two-dimensional array [a]. *)
Definition np_scale2 (s : Qc) (a : ndarray2) : ndarray2 :=
  (fun row : vector => Qcmult s <$> row) <$> a.

(** The bound of a slice [i:] or [:i] on an axis of length [n]. *)
Definition slice_bound (n i : Z) : Z :=
  if i <? 0 then Z.max (i + n) 0 else Z.min i n.

(** Reading [b] at [(k, l)] when [b] is broadcast: an axis of length one is
    repeated. *)
Definition bcast_get (b : ndarray2) (k l : Z) : Qc :=
  let k' := if shape0 b =? 1 then 0 else k in
  let l' := if shape1 b =? 1 then 0 else l in
  match b !! Z.to_nat k' with
  | Some row => default 0%Qc (row !! Z.to_nat l')
  | None => 0%Qc
  end.

(** [m[r0:r1, c0:c1] = b]: the right-hand side is broadcast to the shape of
    the slice, and a shape that cannot be broadcast raises [ValueError]. *)
Definition assign_block (m : ndarray2) (r0 r1 c0 c1 : Z) (b : ndarray2)
  : result ndarray2 :=
  let rs := slice_bound (shape0 m) r0 in
  let re := slice_bound (shape0 m) r1 in
  let cs := slice_bound (shape1 m) c0 in
  let ce := slice_bound (shape1 m) c1 in
  let h := Z.max 0 (re - rs) in
  let w := Z.max 0 (ce - cs) in
  if ((shape0 b =? h) || (shape0 b =? 1)) && ((shape1 b =? w) || (shape1 b =? 1))
  then
    Ok (imap (fun a row =>
          imap (fun c x =>
            if (rs <=? Z.of_nat a) && (Z.of_nat a <? rs + h)
               && (cs <=? Z.of_nat c) && (Z.of_nat c <? cs + w)
            then bcast_get b (Z.of_nat a - rs) (Z.of_nat c - cs)
            else x) row) m)
  else Raise ValueError.

(** [a[i:j]] on the first axis. *)
Definition np_slice {A : Type} (a : list A) (i j : Z) : list A :=
  let n := Z.of_nat (length a) in
  let s := slice_bound n i in
  let e := slice_bound n j in
  take (Z.to_nat (e - s)) (drop (Z.to_nat s) a).

(** [a[i:]] on the first axis. *)
Definition np_slice_from {A : Type} (a : list A) (i : Z) : list A :=
  drop (Z.to_nat (slice_bound (Z.of_nat (length a)) i)) a.

(** [a[i] = x] on a one-dimensional array. *)
Definition np_setitem (a : vector) (i : Z) (x : Qc) : result vector :=
  let n := Z.of_nat (length a) in
  let j := if i <? 0 then i + n else i in
  if (0 <=? j) && (j <? n) then Ok (<[Z.to_nat j := x]> a)
  else Raise IndexError.

(** [np.matmul(v, a)] of a one-dimensional [v] with a two-dimensional [a]:
    the combination of the rows of [a] weighted by [v]. *)
Definition np_matmul (v : vector) (a : ndarray2) : result vector :=
  if Z.of_nat (length v) =? shape0 a then
    Ok (foldr (fun xr acc =>
                 zip_with Qcplus (Qcmult (fst xr) <$> snd xr) acc)
              (replicate (Z.to_nat (shape1 a)) 0%Qc) (zip v a))
  else Raise ValueError.

(** [np.dot(v, w)] of two one-dimensional arrays. *)
Definition np_dot (v w : vector) : result Qc :=
  if (length v =? length w)%nat then
    Ok (foldr Qcplus 0%Qc (zip_with Qcmult v w))
  else Raise ValueError.

(** [np.vstack((a, b))] of two-dimensional arrays with as many columns. *)
Definition np_vstack (a b : ndarray2) : ndarray2 := a ++ b.

(** [x / n] for a Python float [x], as [t_step] is declared, and a Python
    integer [n]: a zero divisor raises. *)
Definition float_div (x : Qc) (n : Z) : result Qc :=
  if n =? 0 then Raise ZeroDivisionError else Ok (x / Qc_of_Z n)%Qc.

(** The entry [m[a, b]] of a matrix, when it exists. *)
Definition entry (m : ndarray2) (a b : nat) : option Qc :=
  m !! a ≫= (fun row => row !! b).

(** A two-dimensional array of [n] rows of [n] columns. *)
Definition square (n : nat) (m : ndarray2) : Prop :=
  length m = n /\ Forall (fun row => length row = n) m.

(** The entry [(i, j)] of [np.diag(d)], zero outside the array. *)
Definition diag_entry (d : vector) (i j : nat) : Qc :=
  match np_diag d !! i with
  | Some row => default 0%Qc (row !! j)
  | None => 0%Qc
  end.

(** ** The damping methods *)

Inductive DampingMethods : Type :=
| Uniform | Dissipation | Powerseries | Gubbins
| Horderiv2cmb | Br2cmb | Energydensity.

Definition spl_degree : Z := 3.

(** The splines [spl2] that the inner loop of [damp_matrix] visits for
    [spl1], and the pairs that the two loops visit, in order. *)
Definition band (nr_splines spl1 : Z) : list Z :=
  range (Z.max 0 (spl1 - spl_degree)) (Z.min (spl1 + spl_degree + 1) nr_splines).

Definition band_pairs (nr_splines : Z) : list (Z * Z) :=
  spl1 ← range 0 nr_splines; pair spl1 <$> band nr_splines spl1.

Section Damping.

(** [scipy.integrate.newton_cotes(rn)]: the weights (the error term the
    library also returns is not used by the code). *)
Variable newton_cotes : Z -> result vector.

(** [bsplines.derivatives(t_step, tdsteps, derivative)]. *)
Variable derivatives : Qc -> Z -> Z -> result ndarray2.

(** [dampingtype(max_degree, damp_type, damp_dipole)]. *)
Variable dampingtype : Z -> DampingMethods -> bool -> result vector.

(** *** integrator *)

Definition low (spl1 spl2 : Z) : Z :=
  Z.max (Z.max spl1 spl2) spl_degree.

Definition high (spl1 spl2 nr_splines : Z) : Z :=
  Z.min (Z.min (spl1 + spl_degree) (spl2 + spl_degree)) (nr_splines - 1).

(** The inner loop: the Newton-Cotes sum over one time step [t]. *)
Definition integrate_step (newcot : vector) (spl : ndarray2)
    (spl1 spl2 nc_order t : Z) : result Qc :=
  foldM (fun iint_prod stp =>
           w ← np_index newcot stp;
           a ← np_index2 spl (t - spl1) stp;
           b ← np_index2 spl (t - spl2) stp;
           Ok (iint_prod + w * a * b)%Qc)
        (range 0 (nc_order + 1)) 0%Qc.

Definition integrator (spl1 spl2 nr_splines : Z) (t_step : Qc) (ddt : Z)
  : result Qc :=
  let temp_degree := spl_degree - ddt in
  let nc_order := 2 * temp_degree in
  newcot ← newton_cotes nc_order;
  dt ← float_div t_step nc_order;
  spl ← derivatives t_step (nc_order + 1) ddt;
  foldM (fun int_prod t =>
           iint_prod ← integrate_step newcot spl spl1 spl2 nc_order t;
           Ok (int_prod + iint_prod * dt)%Qc)
        (range (low spl1 spl2) (high spl1 spl2 nr_splines + 1)) 0%Qc.

(** *** damp_matrix *)

Definition nm_total (max_degree : Z) : Z := (max_degree + 1) ^ 2 - 1.

Definition damp_matrix (max_degree nr_splines : Z) (t_step damp_factor : Qc)
    (damp_type : DampingMethods) (ddt : Z) (damp_dipole : bool)
  : result (ndarray2 * vector) :=
  let nm := nm_total max_degree in
  matrix ← np_zeros2 (nm * nr_splines) (nm * nr_splines);
  let damp_diag : vector := [] in
  if decide (damp_factor ≠ 0%Qc) then
    damp_diag ← dampingtype max_degree damp_type damp_dipole;
    matrix ←
      foldM (fun matrix spl1 =>
        foldM (fun matrix spl2 =>
                 spl_integral ← integrator spl1 spl2 nr_splines t_step ddt;
                 assign_block matrix
                   (spl1 * nm) ((spl1 + 1) * nm)
                   (spl2 * nm) ((spl2 + 1) * nm)
                   (np_scale2 (damp_factor * spl_integral)%Qc
                              (np_diag damp_diag)))
              (range (Z.max 0 (spl1 - spl_degree))
                     (Z.min (spl1 + spl_degree + 1) nr_splines))
              matrix)
        (range 0 nr_splines) matrix;
    Ok (matrix, damp_diag)
  else Ok (matrix, damp_diag).

(** *** Notions used to state the properties of [damp_matrix] *)

(** The value of the overlap integral, zero when [integrator] raises. *)
Definition integral (nr_splines : Z) (t_step : Qc) (ddt spl1 spl2 : Z) : Qc :=
  match integrator spl1 spl2 nr_splines t_step ddt with
  | Ok v => v
  | Raise _ => 0%Qc
  end.

(** The body of the inner loop of [damp_matrix]. *)
Definition write_block (nm nr_splines : Z) (t_step damp_factor : Qc)
    (ddt : Z) (damp_diag : vector) (matrix : ndarray2) (p : Z * Z)
  : result ndarray2 :=
  spl_integral ← integrator p.1 p.2 nr_splines t_step ddt;
  assign_block matrix (p.1 * nm) ((p.1 + 1) * nm) (p.2 * nm) ((p.2 + 1) * nm)
    (np_scale2 (damp_factor * spl_integral)%Qc (np_diag damp_diag)).

(** What the loops write at the global indices [(a, b)]. *)
Definition block_value (nm nr_splines : Z) (t_step damp_factor : Qc)
    (ddt : Z) (damp_diag : vector) (a b : nat) : Qc :=
  (damp_factor
   * integral nr_splines t_step ddt (Z.of_nat a / nm) (Z.of_nat b / nm)
   * bcast_get (np_diag damp_diag) (Z.of_nat a mod nm) (Z.of_nat b mod nm))%Qc.

(** What the collaborators of [integrator] have to deliver for a
    derivative order [ddt]: the weights of the rule of order
    [2 * (3 - ddt)], and a table of 4 rows of [2 * (3 - ddt) + 1] samples. *)
Definition quadrature_ready (t_step : Qc) (ddt : Z) : Prop :=
  exists (newcot : vector) (spl : ndarray2),
    newton_cotes (2 * (spl_degree - ddt)) = Ok newcot
    /\ Z.of_nat (length newcot) = 2 * (spl_degree - ddt) + 1
    /\ derivatives t_step (2 * (spl_degree - ddt) + 1) ddt = Ok spl
    /\ shape0 spl = spl_degree + 1
    /\ Forall (fun row => Z.of_nat (length row) = 2 * (spl_degree - ddt) + 1)
              spl.

(** A call of [damp_matrix] within its contract, with collaborators that
    deliver. *)
Definition valid_call (max_degree nr_splines : Z) (t_step : Qc)
    (damp_type : DampingMethods) (ddt : Z) (damp_dipole : bool) : Prop :=
  0 <= max_degree /\ 0 <= nr_splines /\ 0 <= ddt <= 2
  /\ quadrature_ready t_step ddt
  /\ exists weights : vector,
       dampingtype max_degree damp_type damp_dipole = Ok weights
       /\ Z.of_nat (length weights) = nm_total max_degree.

(** *** damp_norm *)

(** The body of the loop of [damp_norm], up to the assignment: the value
    that is stored in [norm[t]]. *)
Definition norm_at (damp_fac spl : vector) (coeffsp : ndarray2) (t : Z)
  : result Qc :=
  g_spl ← np_matmul spl (np_slice coeffsp t (t + (spl_degree + 1)));
  np_dot damp_fac ((fun g => g * g)%Qc <$> g_spl).

(** [damp_norm] up to the end of its loop: the array [norm] before it is
    cut and divided. *)
Definition damp_norm_loop (damp_fac spl : vector) (coeff : ndarray2)
  : result vector :=
  norm ← np_zeros (Z.of_nat (length coeff));
  row0 ← np_index coeff 0;
  pad ← np_zeros2 spl_degree (Z.of_nat (length row0));
  let coeffsp := np_vstack pad coeff in
  foldM (fun norm t =>
           x ← norm_at damp_fac spl coeffsp t;
           np_setitem norm t x)
        (range 0 (Z.of_nat (length coeff))) norm.

(** For [t_step = 0] NumPy divides to [inf] or [nan] with a warning; the
    model divides in [Qc], so it is read for [t_step <> 0] or for an empty
    array. *)
Definition damp_norm (damp_fac : vector) (coeff : ndarray2) (ddt : Z)
    (t_step : Qc) : result vector :=
  tbl ← derivatives t_step 1 ddt;
  let spl := concat tbl in
  norm ← damp_norm_loop damp_fac spl coeff;
  Ok ((fun x => x / t_step)%Qc <$> np_slice_from norm spl_degree).

End Damping.

(** ** A reference instance of the collaborators

    The collaborators are not part of [damping.py]. The instance below is
    used to run the definitions on concrete inputs and to show that what the
    theorems assume of the collaborators can be met. *)

Module Reference.

Definition q (n : Z) (d : positive) : Qc := Q2Qc (n # d).

(** The closed Newton-Cotes weights of SciPy's built-in table, for the
    orders 1 to 6: [na / da * vi]. The other orders are not modelled. *)
Definition newton_cotes (rn : Z) : result vector :=
  match rn with
  | 1 => Ok (map (Qcmult (q 1 2)) [q 1 1; q 1 1])
  | 2 => Ok (map (Qcmult (q 1 3)) [q 1 1; q 4 1; q 1 1])
  | 3 => Ok (map (Qcmult (q 3 8)) [q 1 1; q 3 1; q 3 1; q 1 1])
  | 4 => Ok (map (Qcmult (q 2 45)) [q 7 1; q 32 1; q 12 1; q 32 1; q 7 1])
  | 5 => Ok (map (Qcmult (q 5 288))
               [q 19 1; q 75 1; q 50 1; q 50 1; q 75 1; q 19 1])
  | 6 => Ok (map (Qcmult (q 1 140))
               [q 41 1; q 216 1; q 27 1; q 272 1; q 27 1; q 216 1; q 41 1])
  | _ => Raise CollaboratorError
  end.

(** The piece number [shift] of the uniform cubic B-spline, or of its first
    or second derivative, at the local abscissa [u] of a knot interval of
    length one. *)
Definition piece (derivative shift : Z) (u : Qc) : Qc :=
  match derivative, shift with
  | 0, 0 => u * u * u / q 6 1
  | 0, 1 => (q (-3) 1 * u * u * u + q 3 1 * u * u + q 3 1 * u + 1) / q 6 1
  | 0, 2 => (q 3 1 * u * u * u - q 6 1 * u * u + q 4 1) / q 6 1
  | 0, 3 => (1 - u) * (1 - u) * (1 - u) / q 6 1
  | 1, 0 => u * u / q 2 1
  | 1, 1 => (q (-3) 1 * u * u + q 2 1 * u + 1) / q 2 1
  | 1, 2 => (q 3 1 * u * u - q 4 1 * u) / q 2 1
  | 1, 3 => - ((1 - u) * (1 - u)) / q 2 1
  | 2, 0 => u
  | 2, 1 => q (-3) 1 * u + 1
  | 2, 2 => q 3 1 * u - q 2 1
  | 2, 3 => 1 - u
  | _, _ => 0
  end%Qc.

(** Modelled from the spec: [bsplines.derivatives] is missing from the
    sources; section 6 of the specification describes it as the table,
    indexed by shift (0 to 3) and by sample point, of the cubic B-spline
    pieces of the given derivative order at [num_points] equally spaced
    points of one knot interval, in closed form. *)
Definition derivatives (t_step : Qc) (tdsteps derivative : Z)
  : result ndarray2 :=
  if (tdsteps <? 1) || (derivative <? 0) || (2 <? derivative)
  then Raise CollaboratorError
  else
    let scale := (1 / Qcpower t_step (Z.to_nat derivative))%Qc in
    let u p := if tdsteps =? 1 then 0%Qc
               else (Qc_of_Z p / Qc_of_Z (tdsteps - 1))%Qc in
    Ok (map (fun shift =>
               map (fun p => (scale * piece derivative shift (u p))%Qc)
                   (range 0 tdsteps))
            (range 0 (spl_degree + 1))).

(** Modelled from the spec: [dampingtype] is missing from the sources;
    section 6 of the specification asks for one non-negative weight per
    coefficient, with the weights of degree one set to zero when
    [damp_dipole] is false. Only the uniform profile is modelled. *)
Definition dampingtype (max_degree : Z) (damp_type : DampingMethods)
    (damp_dipole : bool) : result vector :=
  match damp_type with
  | Uniform =>
      Ok (imap (fun k (x : Qc) =>
                  if damp_dipole || (3 <=? k)%nat then x else 0%Qc)
               (replicate (Z.to_nat (nm_total max_degree)) 1%Qc))
  | _ => Raise CollaboratorError
  end.

Definition integrator := integrator newton_cotes derivatives.
Definition damp_matrix := damp_matrix newton_cotes derivatives dampingtype.
Definition damp_norm := damp_norm derivatives.

End Reference.

(** ** The same code in binary64

    [integrator] and [damp_matrix] once more, with Python's [float] and
    NumPy's [float64] as IEEE 754 binary64 numbers: every product, sum and
    quotient is rounded where the code rounds it, in the order in which the
    code evaluates it. The definitions follow the ones above line by line;
    only the scalars differ. They are run on concrete inputs, to decide what
    depends on rounding. *)

Module Binary64.

Abbreviation vector := (list float).
Abbreviation ndarray2 := (list (list float)).

(** The conversion of a Python [int] to a [float] (exact below [2^53], the
    model is not meant for [2^63] and above). *)
Definition of_int (n : Z) : float :=
  match n with
  | Z0 => 0%float
  | Zpos _ => of_uint63 (Uint63.of_Z n)
  | Zneg p => (- of_uint63 (Uint63.of_Z (Zpos p)))%float
  end.

Definition shape0 (a : ndarray2) : Z := Z.of_nat (length a).
Definition shape1 (a : ndarray2) : Z := Z.of_nat (length (hd [] a)).

Definition np_index2 (a : ndarray2) (r c : Z) : result float :=
  row ← np_index a r; np_index row c.

Definition np_zeros2 (r c : Z) : result ndarray2 :=
  if (r <? 0) || (c <? 0) then Raise ValueError
  else Ok (replicate (Z.to_nat r) (replicate (Z.to_nat c) 0%float)).

Definition np_diag (v : vector) : ndarray2 :=
  imap (fun k x => <[k := x]> (replicate (length v) 0%float)) v.

Definition np_scale2 (s : float) (a : ndarray2) : ndarray2 :=
  (fun row : vector => PrimFloat.mul s <$> row) <$> a.

Definition bcast_get (b : ndarray2) (k l : Z) : float :=
  let k' := if shape0 b =? 1 then 0 else k in
  let l' := if shape1 b =? 1 then 0 else l in
  match b !! Z.to_nat k' with
  | Some row => default 0%float (row !! Z.to_nat l')
  | None => 0%float
  end.

Definition assign_block (m : ndarray2) (r0 r1 c0 c1 : Z) (b : ndarray2)
  : result ndarray2 :=
  let rs := slice_bound (shape0 m) r0 in
  let re := slice_bound (shape0 m) r1 in
  let cs := slice_bound (shape1 m) c0 in
  let ce := slice_bound (shape1 m) c1 in
  let h := Z.max 0 (re - rs) in
  let w := Z.max 0 (ce - cs) in
  if ((shape0 b =? h) || (shape0 b =? 1)) && ((shape1 b =? w) || (shape1 b =? 1))
  then
    Ok (imap (fun a row =>
          imap (fun c x =>
            if (rs <=? Z.of_nat a) && (Z.of_nat a <? rs + h)
               && (cs <=? Z.of_nat c) && (Z.of_nat c <? cs + w)
            then bcast_get b (Z.of_nat a - rs) (Z.of_nat c - cs)
            else x) row) m)
  else Raise ValueError.

Definition float_div (x : float) (n : Z) : result float :=
  if n =? 0 then Raise ZeroDivisionError else Ok (x / of_int n)%float.

Definition entry (m : ndarray2) (a b : nat) : option float :=
  m !! a ≫= (fun row => row !! b).

Section Damping.

Variable newton_cotes : Z -> result vector.
Variable derivatives : float -> Z -> Z -> result ndarray2.
Variable dampingtype : Z -> DampingMethods -> bool -> result vector.

(** Line 116: [newcot[stp] * spl[t - spl1, stp]] is rounded first, then
    its product with [spl[t - spl2, stp]], then the sum. *)
Definition integrate_step (newcot : vector) (spl : ndarray2)
    (spl1 spl2 nc_order t : Z) : result float :=
  foldM (fun iint_prod stp =>
           w ← np_index newcot stp;
           a ← np_index2 spl (t - spl1) stp;
           b ← np_index2 spl (t - spl2) stp;
           Ok (iint_prod + w * a * b)%float)
        (range 0 (nc_order + 1)) 0%float.

Definition integrator (spl1 spl2 nr_splines : Z) (t_step : float) (ddt : Z)
  : result float :=
  let temp_degree := spl_degree - ddt in
  let nc_order := 2 * temp_degree in
  newcot ← newton_cotes nc_order;
  dt ← float_div t_step nc_order;
  spl ← derivatives t_step (nc_order + 1) ddt;
  foldM (fun int_prod t =>
           iint_prod ← integrate_step newcot spl spl1 spl2 nc_order t;
           Ok (int_prod + iint_prod * dt)%float)
        (range (low spl1 spl2) (high spl1 spl2 nr_splines + 1)) 0%float.

(** Line 63: [damp_factor * spl_integral] is rounded first, then its
    product with each entry of [np.diag(damp_diag)]. *)
Definition damp_matrix (max_degree nr_splines : Z) (t_step damp_factor : float)
    (damp_type : DampingMethods) (ddt : Z) (damp_dipole : bool)
  : result (ndarray2 * vector) :=
  let nm := nm_total max_degree in
  matrix ← np_zeros2 (nm * nr_splines) (nm * nr_splines);
  let damp_diag : vector := [] in
  if negb (damp_factor =? 0)%float then
    damp_diag ← dampingtype max_degree damp_type damp_dipole;
    matrix ←
      foldM (fun matrix spl1 =>
        foldM (fun matrix spl2 =>
                 spl_integral ← integrator spl1 spl2 nr_splines t_step ddt;
                 assign_block matrix
                   (spl1 * nm) ((spl1 + 1) * nm)
                   (spl2 * nm) ((spl2 + 1) * nm)
                   (np_scale2 (damp_factor * spl_integral)%float
                              (np_diag damp_diag)))
              (range (Z.max 0 (spl1 - spl_degree))
                     (Z.min (spl1 + spl_degree + 1) nr_splines))
              matrix)
        (range 0 nr_splines) matrix;
    Ok (matrix, damp_diag)
  else Ok (matrix, damp_diag).

End Damping.

(** *** The collaborators in binary64 *)

(** [scipy.integrate.newton_cotes] computes the weights of its built-in
    table as [na * np.array(vi, dtype=float) / da]. *)
Definition newton_cotes (rn : Z) : result vector :=
  let an (na da : Z) (vi : list Z) : result vector :=
    Ok (map (fun v => (of_int na * of_int v / of_int da)%float) vi) in
  match rn with
  | 1 => an 1 2 [1; 1]
  | 2 => an 1 3 [1; 4; 1]
  | 3 => an 3 8 [1; 3; 3; 1]
  | 4 => an 2 45 [7; 32; 12; 32; 7]
  | 5 => an 5 288 [19; 75; 50; 50; 75; 19]
  | 6 => an 1 140 [41; 216; 27; 272; 27; 216; 41]
  | _ => Raise CollaboratorError
  end.

(** [Reference.piece], evaluated from left to right. *)
Definition piece (derivative shift : Z) (u : float) : float :=
  match derivative, shift with
  | 0, 0 => u * u * u / 6
  | 0, 1 => (-3 * u * u * u + 3 * u * u + 3 * u + 1) / 6
  | 0, 2 => (3 * u * u * u - 6 * u * u + 4) / 6
  | 0, 3 => (1 - u) * (1 - u) * (1 - u) / 6
  | 1, 0 => u * u / 2
  | 1, 1 => (-3 * u * u + 2 * u + 1) / 2
  | 1, 2 => (3 * u * u - 4 * u) / 2
  | 1, 3 => - ((1 - u) * (1 - u)) / 2
  | 2, 0 => u
  | 2, 1 => -3 * u + 1
  | 2, 2 => 3 * u - 2
  | 2, 3 => 1 - u
  | _, _ => 0
  end%float.

Fixpoint power (x : float) (n : nat) : float :=
  match n with
  | O => 1%float
  | S n' => (x * power x n')%float
  end.

(** Modelled from the spec: [bsplines.derivatives] is missing from the
    sources; this is [Reference.derivatives], the closed form of section 6
    of the specification, with its operations in binary64. *)
Definition derivatives (t_step : float) (tdsteps derivative : Z)
  : result ndarray2 :=
  if (tdsteps <? 1) || (derivative <? 0) || (2 <? derivative)
  then Raise CollaboratorError
  else
    let scale := (1 / power t_step (Z.to_nat derivative))%float in
    let u p := if tdsteps =? 1 then 0%float
               else (of_int p / of_int (tdsteps - 1))%float in
    Ok (map (fun shift =>
               map (fun p => (scale * piece derivative shift (u p))%float)
                   (range 0 tdsteps))
            (range 0 (spl_degree + 1))).

(** Modelled from the spec: [dampingtype] is missing from the sources.
    [weights w] is a profile that gives every coefficient the weight [w],
    and 0 to the three coefficients of degree one when [damp_dipole] is
    false; the uniform profile is [weights 1], as in
    [Reference.dampingtype]. *)
Definition weights (w : float) (max_degree : Z) (damp_type : DampingMethods)
    (damp_dipole : bool) : result vector :=
  Ok (imap (fun k (x : float) =>
              if damp_dipole || (3 <=? k)%nat then x else 0%float)
           (replicate (Z.to_nat (nm_total max_degree)) w)).

Definition dampingtype (max_degree : Z) (damp_type : DampingMethods)
    (damp_dipole : bool) : result vector :=
  match damp_type with
  | Uniform => weights 1 max_degree damp_type damp_dipole
  | _ => Raise CollaboratorError
  end.

End Binary64.

(** * Properties *)

(** ** Loops and ranges *)

Lemma range_empty (a b : Z) : b <= a -> range a b = [].
Proof. intros H. unfold range. apply seqZ_nil. lia. Qed.

Lemma elem_of_range (a b x : Z) : x ∈ range a b <-> a <= x < b.
Proof. unfold range. rewrite elem_of_seqZ. lia. Qed.

Lemma foldM_app {A S : Type} (f : S -> A -> result S) (l1 l2 : list A) (s : S) :
  foldM f (l1 ++ l2) s = s' ← foldM f l1 s; foldM f l2 s'.
Proof.
  revert s. induction l1 as [|x l1 IH]; intros s; simpl; [done|].
  destruct (f s x) as [s'|e]; simpl; [apply IH|done].
Qed.

Lemma foldM_ext {A S : Type} (f g : S -> A -> result S) (l : list A) (s : S) :
  (forall s x, x ∈ l -> f s x = g s x) -> foldM f l s = foldM g l s.
Proof.
  revert s. induction l as [|x l IH]; intros s H; simpl; [done|].
  rewrite H by left. destruct (g s x) as [s'|e]; simpl; [|done].
  apply IH. intros s0 y Hy. apply H. by right.
Qed.

Lemma foldM_total {A S : Type} (f : S -> A -> result S) (l : list A) (s : S) :
  (forall s x, x ∈ l -> exists s', f s x = Ok s') ->
  exists s', foldM f l s = Ok s'.
Proof.
  revert s. induction l as [|x l IH]; intros s H; simpl; [by eexists|].
  destruct (H s x) as [s' ->]; [left|]. simpl.
  apply IH. intros s0 y Hy. apply H. by right.
Qed.

(** A loop raises only what one of its bodies raises. *)
Lemma foldM_raise {A S : Type} (f : S -> A -> result S) (l : list A) (s : S)
    (e : exn) :
  foldM f l s = Raise e -> exists s0 x, x ∈ l /\ f s0 x = Raise e.
Proof.
  revert s. induction l as [|x l IH]; intros s; simpl; [done|].
  destruct (f s x) as [s'|e'] eqn:E; simpl.
  - intros H. destruct (IH _ H) as (s0 & y & Hy & Hf).
    exists s0, y. split; [by right|done].
  - intros [= ->]. exists s, x. split; [left|done].
Qed.

Lemma bind_Ok {A B : Type} (a : A) (k : A -> result B) : Ok a ≫= k = k a.
Proof. done. Qed.

(** ** Indexing *)

Lemma np_index_Ok {A : Type} (a : list A) (i : Z) :
  0 <= i < Z.of_nat (length a) ->
  exists x, np_index a i = Ok x /\ a !! Z.to_nat i = Some x.
Proof.
  intros H. unfold np_index.
  destruct (i <? 0) eqn:E1; [lia|].
  destruct ((0 <=? i) && (i <? Z.of_nat (length a))) eqn:E2;
    [|apply andb_false_iff in E2; lia].
  destruct (lookup_lt_is_Some_2 a (Z.to_nat i)) as [x Hx]; [lia|].
  exists x. by rewrite Hx.
Qed.

Lemma np_index_raise {A : Type} (a : list A) (i : Z) (e : exn) :
  np_index a i = Raise e -> e = IndexError.
Proof.
  unfold np_index.
  destruct (_ && _); [destruct (a !! _)|]; congruence.
Qed.

Lemma np_index2_raise (a : ndarray2) (r c : Z) (e : exn) :
  np_index2 a r c = Raise e -> e = IndexError.
Proof.
  unfold np_index2. destruct (np_index a r) as [row|e'] eqn:E; simpl.
  - apply np_index_raise.
  - intros [= ->]. by apply np_index_raise in E.
Qed.

Lemma np_index2_Ok (a : ndarray2) (r c n : Z) :
  Forall (fun row => Z.of_nat (length row) = n) a ->
  0 <= r < shape0 a -> 0 <= c < n ->
  exists x, np_index2 a r c = Ok x.
Proof.
  intros Hrect Hr Hc. unfold np_index2.
  destruct (np_index_Ok a r Hr) as (row & -> & Hrow). simpl.
  assert (Z.of_nat (length row) = n) as Hlen.
  { rewrite Forall_lookup in Hrect. by eapply Hrect. }
  destruct (np_index_Ok row c) as (x & -> & _); [lia|]. by exists x.
Qed.

(** ** The overlap integrator *)

Section IntegratorProperties.

Variable newton_cotes : Z -> result vector.
Variable derivatives : Qc -> Z -> Z -> result ndarray2.

Local Abbreviation integrator' := (integrator newton_cotes derivatives).



(** Out of the band of width [spl_degree] there is no common interval. *)
Lemma out_of_band_empty (spl1 spl2 nr_splines : Z) :
  spl_degree < Z.abs (spl1 - spl2) ->
  high spl1 spl2 nr_splines < low spl1 spl2.
Proof. unfold high, low, spl_degree. lia. Qed.

Lemma float_div_Ok (x : Qc) (n : Z) :
  n <> 0 -> float_div x n = Ok (x / Qc_of_Z n)%Qc.
Proof. intros H. unfold float_div. by destruct (Z.eqb_spec n 0). Qed.

Lemma integrate_step_total (newcot : vector) (spl : ndarray2)
    (spl1 spl2 nc_order t : Z) :
  Z.of_nat (length newcot) = nc_order + 1 ->
  Forall (fun row => Z.of_nat (length row) = nc_order + 1) spl ->
  0 <= t - spl1 < shape0 spl -> 0 <= t - spl2 < shape0 spl ->
  exists v, integrate_step newcot spl spl1 spl2 nc_order t = Ok v.
Proof.
  intros Hw Hrect H1 H2. unfold integrate_step.
  apply foldM_total. intros acc stp Hstp.
  apply elem_of_range in Hstp.
  destruct (np_index_Ok newcot stp) as (w & -> & _); [lia|]. simpl.
  destruct (np_index2_Ok spl (t - spl1) stp _ Hrect) as [a ->]; [lia..|].
  destruct (np_index2_Ok spl (t - spl2) stp _ Hrect) as [b ->]; [lia..|].
  simpl. by eexists.
Qed.

Lemma integrator_total (spl1 spl2 nr_splines : Z) (t_step : Qc) (ddt : Z)
    (newcot : vector) (spl : ndarray2) :
  0 <= ddt <= 2 ->
  newton_cotes (2 * (spl_degree - ddt)) = Ok newcot ->
  Z.of_nat (length newcot) = 2 * (spl_degree - ddt) + 1 ->
  derivatives t_step (2 * (spl_degree - ddt) + 1) ddt = Ok spl ->
  shape0 spl = spl_degree + 1 ->
  Forall (fun row => Z.of_nat (length row) = 2 * (spl_degree - ddt) + 1) spl ->
  exists v, integrator' spl1 spl2 nr_splines t_step ddt = Ok v.
Proof.
  intros Hddt Hnc Hw Hd Hrows Hrect. unfold integrator.
  rewrite Hnc. simpl. rewrite float_div_Ok by (unfold spl_degree; lia).
  simpl. rewrite Hd. simpl.
  apply foldM_total. intros acc t Ht. apply elem_of_range in Ht.
  destruct (integrate_step_total newcot spl spl1 spl2
              (2 * (spl_degree - ddt)) t) as [v ->]; try done.
  - unfold low, high, spl_degree in *. lia.
  - unfold low, high, spl_degree in *. lia.
  - simpl. by eexists.
Qed.

(** C1. [integrator] sums the contributions of the unit intervals [t]
    from [low = max(spl1, spl2, 3)] to
    [high = min(spl1 + 3, spl2 + 3, nr_splines - 1)] and of no other; it
    returns 0 when [low > high], and so it returns 0, and does not raise,
    for every pair with [|spl1 - spl2| > 3]. *)
Theorem integrator_overlap_range (spl1 spl2 nr_splines : Z) (t_step : Qc)
    (ddt : Z) (newcot : vector) (spl : ndarray2) :
  newton_cotes (2 * (spl_degree - ddt)) = Ok newcot ->
  ddt <> 3 ->
  derivatives t_step (2 * (spl_degree - ddt) + 1) ddt = Ok spl ->
  integrator' spl1 spl2 nr_splines t_step ddt
  = foldM (fun int_prod t =>
             iint_prod ← integrate_step newcot spl spl1 spl2
                           (2 * (spl_degree - ddt)) t;
             Ok (int_prod
                 + iint_prod * (t_step / Qc_of_Z (2 * (spl_degree - ddt))))%Qc)
          (range (Z.max (Z.max spl1 spl2) 3)
                 (Z.min (Z.min (spl1 + 3) (spl2 + 3)) (nr_splines - 1) + 1))
          0%Qc
  /\ (Z.min (Z.min (spl1 + 3) (spl2 + 3)) (nr_splines - 1)
      < Z.max (Z.max spl1 spl2) 3 ->
      integrator' spl1 spl2 nr_splines t_step ddt = Ok 0%Qc)
  /\ (3 < Z.abs (spl1 - spl2) ->
      integrator' spl1 spl2 nr_splines t_step ddt = Ok 0%Qc).
Proof.
  intros Hnc Hddt Hd.
  assert (integrator' spl1 spl2 nr_splines t_step ddt
          = foldM (fun int_prod t =>
             iint_prod ← integrate_step newcot spl spl1 spl2
                           (2 * (spl_degree - ddt)) t;
             Ok (int_prod
                 + iint_prod * (t_step / Qc_of_Z (2 * (spl_degree - ddt))))%Qc)
          (range (low spl1 spl2) (high spl1 spl2 nr_splines + 1)) 0%Qc)
    as Heq.
  { unfold integrator. rewrite Hnc. simpl.
    rewrite float_div_Ok by (unfold spl_degree; lia). simpl.
    by rewrite Hd. }
  assert (high spl1 spl2 nr_splines < low spl1 spl2 ->
          integrator' spl1 spl2 nr_splines t_step ddt = Ok 0%Qc) as Hempty.
  { intros Hlt. rewrite Heq, range_empty by lia. done. }
  split; [exact Heq|]. split; [exact Hempty|].
  intros Hband. apply Hempty. by apply out_of_band_empty.
Qed.

(** C9. Inside the quadrature loops every read [spl[t - spl1, stp]] and
    [spl[t - spl2, stp]] of the table of sampled derivatives is in bounds:
    the row index is in [0, 3], the column index is in [0, nc_order], the
    read succeeds, and [integrator] returns. *)
Theorem integrator_table_reads_in_bounds (spl1 spl2 nr_splines : Z)
    (t_step : Qc) (ddt : Z) (newcot : vector) (spl : ndarray2) :
  0 <= ddt <= 2 ->
  newton_cotes (2 * (spl_degree - ddt)) = Ok newcot ->
  Z.of_nat (length newcot) = 2 * (spl_degree - ddt) + 1 ->
  derivatives t_step (2 * (spl_degree - ddt) + 1) ddt = Ok spl ->
  shape0 spl = spl_degree + 1 ->
  Forall (fun row => Z.of_nat (length row) = 2 * (spl_degree - ddt) + 1) spl ->
  (forall t stp,
      t ∈ range (low spl1 spl2) (high spl1 spl2 nr_splines + 1) ->
      stp ∈ range 0 (2 * (spl_degree - ddt) + 1) ->
      0 <= t - spl1 <= 3 /\ 0 <= t - spl2 <= 3
      /\ 0 <= stp <= 2 * (spl_degree - ddt)
      /\ (exists x, np_index2 spl (t - spl1) stp = Ok x)
      /\ (exists y, np_index2 spl (t - spl2) stp = Ok y))
  /\ exists v, integrator' spl1 spl2 nr_splines t_step ddt = Ok v.
Proof.
  intros Hddt Hnc Hw Hd Hrows Hrect. split.
  - intros t stp Ht Hstp.
    apply elem_of_range in Ht. apply elem_of_range in Hstp.
    assert (0 <= t - spl1 <= 3 /\ 0 <= t - spl2 <= 3) as [H1 H2]
      by (unfold low, high, spl_degree in Ht; lia).
    repeat split; try lia.
    + eapply np_index2_Ok; [exact Hrect| |lia].
      rewrite Hrows. unfold spl_degree. lia.
    + eapply np_index2_Ok; [exact Hrect| |lia].
      rewrite Hrows. unfold spl_degree. lia.
  - by eapply integrator_total.
Qed.

End IntegratorProperties.

(** ** Arrays: shapes and entries *)

Lemma square_shape0 (n : nat) (m : ndarray2) :
  square n m -> shape0 m = Z.of_nat n.
Proof. intros [H _]. unfold shape0. by rewrite H. Qed.

Lemma square_shape1 (n : nat) (m : ndarray2) :
  square n m -> shape1 m = Z.of_nat n.
Proof.
  intros [Hl Hr]. unfold shape1. destruct m as [|row m]; simpl in *.
  - by rewrite <- Hl.
  - inversion_clear Hr as [|? ? Hrow _]. by rewrite Hrow.
Qed.

Lemma square_zeros (n : nat) :
  square n (replicate n (replicate n 0%Qc)).
Proof.
  split; [apply length_replicate|].
  apply Forall_replicate. apply length_replicate.
Qed.

Lemma entry_zeros (n a b : nat) :
  (a < n)%nat -> (b < n)%nat ->
  entry (replicate n (replicate n 0%Qc)) a b = Some 0%Qc.
Proof.
  intros Ha Hb. unfold entry.
  rewrite lookup_replicate_2 by done. simpl.
  by apply lookup_replicate_2.
Qed.

Lemma entry_square_None (n : nat) (m : ndarray2) (a b : nat) :
  square n m -> (n <= a)%nat \/ (n <= b)%nat -> entry m a b = None.
Proof.
  intros [Hl Hr] H. unfold entry.
  destruct (m !! a) as [row|] eqn:E; simpl; [|done].
  apply lookup_ge_None.
  rewrite Forall_lookup in Hr. rewrite (Hr _ _ E).
  apply lookup_lt_Some in E. lia.
Qed.

Lemma slice_bound_id (n i : Z) : 0 <= i <= n -> slice_bound n i = i.
Proof. intros H. unfold slice_bound. destruct (Z.ltb_spec i 0); lia. Qed.

Lemma np_scale2_shape0 (s : Qc) (b : ndarray2) :
  shape0 (np_scale2 s b) = shape0 b.
Proof. unfold shape0, np_scale2. by rewrite length_fmap. Qed.

Lemma np_scale2_shape1 (s : Qc) (b : ndarray2) :
  shape1 (np_scale2 s b) = shape1 b.
Proof.
  unfold shape1, np_scale2. destruct b as [|row b]; simpl; [done|].
  by rewrite length_fmap.
Qed.

Lemma bcast_get_scale (s : Qc) (b : ndarray2) (k l : Z) :
  bcast_get (np_scale2 s b) k l = (s * bcast_get b k l)%Qc.
Proof.
  unfold bcast_get. rewrite np_scale2_shape0, np_scale2_shape1.
  unfold np_scale2. rewrite list_lookup_fmap.
  destruct (b !! _) as [row|]; simpl; [|ring].
  rewrite list_lookup_fmap.
  destruct (row !! _) as [x|]; simpl; [done|ring].
Qed.

Lemma np_diag_shape0 (d : vector) : shape0 (np_diag d) = Z.of_nat (length d).
Proof. unfold shape0, np_diag. by rewrite length_imap. Qed.

Lemma np_diag_shape1 (d : vector) : shape1 (np_diag d) = Z.of_nat (length d).
Proof.
  unfold shape1, np_diag. destruct d as [|x d]; [done|].
  simpl. by rewrite length_replicate.
Qed.

Lemma diag_entry_ne (d : vector) (i j : nat) :
  i <> j -> diag_entry d i j = 0%Qc.
Proof.
  intros Hne. unfold diag_entry, np_diag. rewrite list_lookup_imap.
  destruct (d !! i) as [x|]; simpl; [|done].
  rewrite list_lookup_insert_ne by done.
  destruct (replicate (length d) 0%Qc !! j) as [y|] eqn:E; simpl; [|done].
  by apply lookup_replicate in E as [-> _].
Qed.



(** What [m[r0:r1, c0:c1] = b] leaves in a square matrix [m], when the
    slices are within the matrix. *)
Lemma assign_block_entry (n : nat) (m m' : ndarray2) (r0 r1 c0 c1 : Z)
    (b : ndarray2) (i j : nat) :
  square n m ->
  0 <= r0 <= r1 -> r1 <= Z.of_nat n -> 0 <= c0 <= c1 -> c1 <= Z.of_nat n ->
  assign_block m r0 r1 c0 c1 b = Ok m' ->
  entry m' i j
  = (fun x => if (r0 <=? Z.of_nat i) && (Z.of_nat i <? r1)
                 && (c0 <=? Z.of_nat j) && (Z.of_nat j <? c1)
              then bcast_get b (Z.of_nat i - r0) (Z.of_nat j - c0)
              else x) <$> entry m i j.
Proof.
  intros Hsq Hr Hr1 Hc Hc1. unfold assign_block.
  rewrite (square_shape0 n m Hsq), (square_shape1 n m Hsq).
  rewrite !slice_bound_id by lia.
  replace (r0 + Z.max 0 (r1 - r0)) with r1 by lia.
  replace (c0 + Z.max 0 (c1 - c0)) with c1 by lia.
  destruct (_ && _); [|done]. intros [= <-].
  unfold entry. rewrite list_lookup_imap.
  destruct (m !! i) as [row|]; simpl; [|done].
  rewrite list_lookup_imap. done.
Qed.

Lemma assign_block_square (n : nat) (m m' : ndarray2) (r0 r1 c0 c1 : Z)
    (b : ndarray2) :
  square n m -> assign_block m r0 r1 c0 c1 b = Ok m' -> square n m'.
Proof.
  intros [Hl Hr]. unfold assign_block.
  destruct (_ && _); [|done]. intros [= <-]. split.
  - by rewrite length_imap.
  - apply Forall_lookup. intros i row. rewrite list_lookup_imap.
    destruct (m !! i) as [row0|] eqn:E; simpl; [|done].
    intros [= <-]. rewrite length_imap.
    rewrite Forall_lookup in Hr. by eapply Hr.
Qed.

(** ** The damping matrix *)

Lemma foldM_fmap {A B S : Type} (f : S -> B -> result S) (h : A -> B)
    (l : list A) (s : S) :
  foldM f (h <$> l) s = foldM (fun s x => f s (h x)) l s.
Proof.
  revert s. induction l as [|x l IH]; intros s; simpl; [done|].
  destruct (f s (h x)); simpl; [apply IH|done].
Qed.

Lemma foldM_nested {A B S : Type} (f : S -> A * B -> result S)
    (g : A -> list B) (l : list A) (s : S) :
  foldM (fun s x => foldM (fun s y => f s (x, y)) (g x) s) l s
  = foldM f (x ← l; pair x <$> g x) s.
Proof.
  revert s. induction l as [|x l IH]; intros s; simpl; [done|].
  rewrite foldM_app, foldM_fmap.
  destruct (foldM _ (g x) s); simpl; [apply IH|done].
Qed.

(** A loop keeps what each of its bodies keeps. *)
Lemma foldM_invariant {A S : Type} (P : S -> Prop) (f : S -> A -> result S)
    (l : list A) (s s' : S) :
  (forall s x s', x ∈ l -> P s -> f s x = Ok s' -> P s') ->
  P s -> foldM f l s = Ok s' -> P s'.
Proof.
  revert s. induction l as [|x l IH]; intros s Hf Hs; simpl.
  - by intros [= <-].
  - destruct (f s x) as [s1|e] eqn:E; simpl; [|done].
    apply IH.
    + intros s0 y s0' Hy. apply Hf. by right.
    + eapply Hf; [left|exact Hs|exact E].
Qed.

Lemma foldM_total_invariant {A S : Type} (P : S -> Prop)
    (f : S -> A -> result S) (l : list A) (s : S) :
  (forall s x, x ∈ l -> P s -> exists s', f s x = Ok s' /\ P s') ->
  P s -> exists s', foldM f l s = Ok s' /\ P s'.
Proof.
  revert s. induction l as [|x l IH]; intros s Hf Hs; simpl; [by eexists|].
  destruct (Hf s x) as (s1 & -> & Hs1); [left|done|]. simpl.
  apply IH; [|done]. intros s0 y Hy. apply Hf. by right.
Qed.

Lemma elem_of_band_pairs (nr_splines i j : Z) :
  (i, j) ∈ band_pairs nr_splines
  <-> 0 <= i < nr_splines /\ 0 <= j < nr_splines /\ Z.abs (i - j) <= 3.
Proof.
  unfold band_pairs, band, spl_degree. rewrite list_elem_of_bind. split.
  - intros (x & Hj & Hx). apply elem_of_range in Hx.
    apply list_elem_of_fmap in Hj as (y & [= -> ->] & Hy).
    apply elem_of_range in Hy. lia.
  - intros (Hi & Hj & Hband). exists i. split.
    + apply list_elem_of_fmap. exists j. split; [done|].
      apply elem_of_range. lia.
    + apply elem_of_range. lia.
Qed.

Lemma div_block (nm i a : Z) :
  0 < nm -> (i * nm <= a < (i + 1) * nm <-> a / nm = i).
Proof.
  intros Hnm. split.
  - intros H. symmetry. apply (Z.div_unique_pos a nm i (a - i * nm)); lia.
  - intros <-. pose proof (Z.mul_div_le a nm Hnm).
    pose proof (Z.mul_succ_div_gt a nm Hnm). lia.
Qed.

Lemma mod_block (nm a : Z) : 0 < nm -> a mod nm = a - a / nm * nm.
Proof. intros Hnm. rewrite Z.mod_eq by lia. lia. Qed.

Section MatrixProperties.

Variable newton_cotes : Z -> result vector.
Variable derivatives : Qc -> Z -> Z -> result ndarray2.
Variable dampingtype : Z -> DampingMethods -> bool -> result vector.

Local Abbreviation integrator' := (integrator newton_cotes derivatives).
Local Abbreviation damp_matrix' :=
  (damp_matrix newton_cotes derivatives dampingtype).
Local Abbreviation integral' := (integral newton_cotes derivatives).
Local Abbreviation write_block' := (write_block newton_cotes derivatives).
Local Abbreviation block_value' := (block_value newton_cotes derivatives).
Local Abbreviation quadrature_ready' :=
  (quadrature_ready newton_cotes derivatives).
Local Abbreviation valid_call' :=
  (valid_call newton_cotes derivatives dampingtype).

(** Both endings of [damp_matrix], with the two loops read as one loop
    over the pairs of the band. *)
Lemma damp_matrix_inv (max_degree nr_splines : Z) (t_step damp_factor : Qc)
    (damp_type : DampingMethods) (ddt : Z) (damp_dipole : bool)
    (matrix : ndarray2) (damp_diag : vector) :
  damp_matrix' max_degree nr_splines t_step damp_factor damp_type ddt
    damp_dipole = Ok (matrix, damp_diag) ->
  let n := Z.to_nat (nm_total max_degree * nr_splines) in
  0 <= nm_total max_degree * nr_splines
  /\ ((damp_factor = 0%Qc /\ damp_diag = []
       /\ matrix = replicate n (replicate n 0%Qc))
      \/ (damp_factor <> 0%Qc
          /\ dampingtype max_degree damp_type damp_dipole = Ok damp_diag
          /\ foldM (write_block' (nm_total max_degree) nr_splines t_step
                      damp_factor ddt damp_diag)
               (band_pairs nr_splines) (replicate n (replicate n 0%Qc))
             = Ok matrix)).
Proof.
  intros H n. unfold damp_matrix, np_zeros2 in H.
  destruct (Z.ltb_spec (nm_total max_degree * nr_splines) 0) as [Hneg|Hpos];
    simpl in H; [done|].
  split; [done|]. fold n in H.
  destruct (decide (damp_factor <> 0%Qc)) as [Hc|Hc].
  - right. destruct (dampingtype _ _ _) as [d|e] eqn:Ed; simpl in H; [|done].
    rewrite (foldM_nested
               (write_block' (nm_total max_degree) nr_splines t_step
                  damp_factor ddt d) (band nr_splines)) in H.
    fold (band_pairs nr_splines) in H.
    destruct (foldM _ _ _) as [m|e] eqn:Ef; simpl in H; [|done].
    by injection H as <- <-.
  - left. injection H as <- <-. split; [|done].
    by destruct (decide (damp_factor = 0%Qc)).
Qed.

Section Loop.

Variables (nm nr_splines : Z) (t_step damp_factor : Qc) (ddt : Z)
          (damp_diag : vector) (n : nat).

Local Abbreviation body :=
  (write_block' nm nr_splines t_step damp_factor ddt damp_diag).
Local Abbreviation value :=
  (block_value' nm nr_splines t_step damp_factor ddt damp_diag).

Lemma write_block_square (m m' : ndarray2) (p : Z * Z) :
  square n m -> body m p = Ok m' -> square n m'.
Proof.
  intros Hsq. unfold write_block.
  destruct (integrator' _ _ _ _ _) as [v|e]; simpl; [|done].
  by apply assign_block_square.
Qed.

Lemma fold_write_block_square (pairs : list (Z * Z)) (m m' : ndarray2) :
  square n m -> foldM body pairs m = Ok m' -> square n m'.
Proof.
  apply (foldM_invariant (square n)).
  intros s p s' _. apply write_block_square.
Qed.

Hypothesis nm_pos : 0 < nm.
Hypothesis n_eq : Z.of_nat n = nm * nr_splines.

Lemma write_block_entry (m m' : ndarray2) (p : Z * Z) (a b : nat) :
  square n m -> 0 <= p.1 < nr_splines -> 0 <= p.2 < nr_splines ->
  body m p = Ok m' ->
  entry m' a b
  = (fun x => if bool_decide ((Z.of_nat a / nm, Z.of_nat b / nm) = p)
              then value a b else x) <$> entry m a b.
Proof.
  intros Hsq H1 H2. unfold write_block.
  destruct (integrator' _ _ _ _ _) as [v|e] eqn:Ev; simpl; [|done].
  intros Hm'. destruct p as [i j]; simpl in *.
  assert (0 <= i * nm <= (i + 1) * nm) as Hr by nia.
  assert ((i + 1) * nm <= Z.of_nat n) as Hr1 by nia.
  assert (0 <= j * nm <= (j + 1) * nm) as Hc by nia.
  assert ((j + 1) * nm <= Z.of_nat n) as Hc1 by nia.
  rewrite (assign_block_entry n m m' _ _ _ _ _ a b Hsq Hr Hr1 Hc Hc1 Hm').
  destruct (entry m a b) as [x|]; simpl; [|done]. f_equal.
  case_bool_decide as Hp.
  - injection Hp as Hi Hj.
    apply div_block in Hi, Hj; [|done..].
    replace ((i * nm <=? Z.of_nat a) && (Z.of_nat a <? (i + 1) * nm)
             && (j * nm <=? Z.of_nat b) && (Z.of_nat b <? (j + 1) * nm))
      with true by (symmetry; rewrite !andb_true_iff; lia).
    rewrite bcast_get_scale. unfold block_value, integral.
    apply div_block in Hi, Hj; [|done..].
    rewrite !mod_block, Hi, Hj, Ev by done. ring.
  - destruct ((i * nm <=? Z.of_nat a) && (Z.of_nat a <? (i + 1) * nm)
              && (j * nm <=? Z.of_nat b) && (Z.of_nat b <? (j + 1) * nm))
      eqn:E; [|done].
    rewrite !andb_true_iff in E. destruct Hp.
    f_equal; apply div_block; lia.
Qed.

(** The loop leaves, at every position, the value of the block the
    position lies in if one of the pairs is that block, and what was
    there before if none is. *)
Lemma fold_write_block_entry (pairs : list (Z * Z)) (m m' : ndarray2)
    (a b : nat) :
  square n m ->
  (forall p, p ∈ pairs -> 0 <= p.1 < nr_splines /\ 0 <= p.2 < nr_splines) ->
  foldM body pairs m = Ok m' ->
  entry m' a b
  = (fun x => if bool_decide ((Z.of_nat a / nm, Z.of_nat b / nm) ∈ pairs)
              then value a b else x) <$> entry m a b.
Proof.
  revert m. induction pairs as [|p pairs IH]; intros m Hsq Hin; simpl.
  - intros [= <-]. by destruct (entry m a b).
  - destruct (body m p) as [m1|e] eqn:E1; simpl; [|done]. intros Hfold.
    rewrite (IH m1); [| |intros q Hq; apply Hin; by right|done].
    2: { by eapply write_block_square. }
    destruct (Hin p) as [H1 H2]; [left|].
    rewrite (write_block_entry m m1 p a b) by done.
    destruct (entry m a b) as [x|]; simpl; [|done]. f_equal.
    rewrite (bool_decide_ext _ _ (elem_of_cons pairs _ p)), bool_decide_or.
    by destruct (bool_decide (_ = p)), (bool_decide (_ ∈ pairs)).
Qed.

End Loop.

Lemma quadrature_ready_total (spl1 spl2 nr_splines : Z) (t_step : Qc)
    (ddt : Z) :
  0 <= ddt <= 2 -> quadrature_ready' t_step ddt ->
  exists v, integrator' spl1 spl2 nr_splines t_step ddt = Ok v.
Proof.
  intros Hddt (newcot & spl & H1 & H2 & H3 & H4 & H5).
  by eapply integrator_total.
Qed.

Lemma nm_total_nonneg (max_degree : Z) :
  0 <= max_degree -> 0 <= nm_total max_degree.
Proof. intros H. unfold nm_total. rewrite Z.pow_2_r. nia. Qed.

Lemma damp_matrix_square (max_degree nr_splines : Z) (t_step damp_factor : Qc)
    (damp_type : DampingMethods) (ddt : Z) (damp_dipole : bool)
    (matrix : ndarray2) (damp_diag : vector) :
  damp_matrix' max_degree nr_splines t_step damp_factor damp_type ddt
    damp_dipole = Ok (matrix, damp_diag) ->
  square (Z.to_nat (nm_total max_degree * nr_splines)) matrix.
Proof.
  intros H. apply damp_matrix_inv in H as (_ & [(_ & _ & ->)|(_ & _ & H)]).
  - apply square_zeros.
  - eapply fold_write_block_square; [|exact H]. apply square_zeros.
Qed.

(** Every entry of the matrix that [damp_matrix] returns. *)
Lemma damp_matrix_entry (max_degree nr_splines : Z) (t_step damp_factor : Qc)
    (damp_type : DampingMethods) (ddt : Z) (damp_dipole : bool)
    (matrix : ndarray2) (damp_diag : vector) (a b : nat) :
  damp_matrix' max_degree nr_splines t_step damp_factor damp_type ddt
    damp_dipole = Ok (matrix, damp_diag) ->
  (a < Z.to_nat (nm_total max_degree * nr_splines))%nat ->
  (b < Z.to_nat (nm_total max_degree * nr_splines))%nat ->
  entry matrix a b
  = Some (if bool_decide (damp_factor <> 0%Qc
                          /\ (Z.of_nat a / nm_total max_degree,
                              Z.of_nat b / nm_total max_degree)
                             ∈ band_pairs nr_splines)
          then block_value' (nm_total max_degree) nr_splines t_step
                 damp_factor ddt damp_diag a b
          else 0%Qc).
Proof.
  intros H Ha Hb.
  apply damp_matrix_inv in H as (Hn & [(Hc & _ & ->)|(Hc & _ & H)]).
  - rewrite entry_zeros by done. f_equal.
    case_bool_decide as Hd; [by destruct Hd|done].
  - destruct (Z.lt_ge_cases 0 (nm_total max_degree)) as [Hnm|Hnm].
    + rewrite (fold_write_block_entry (nm_total max_degree) nr_splines t_step
                 damp_factor ddt damp_diag _ Hnm (Z2Nat.id _ Hn)
                 (band_pairs nr_splines) _ matrix a b (square_zeros _)); [|
        |exact H].
      * rewrite entry_zeros by done. simpl. f_equal.
        erewrite bool_decide_ext; [done|]. tauto.
      * intros [i j] Hp. apply elem_of_band_pairs in Hp. simpl. lia.
    + assert (band_pairs nr_splines = []) as Hnil.
      { unfold band_pairs. rewrite range_empty; [done|nia]. }
      rewrite Hnil in H. injection H as <-.
      rewrite entry_zeros by done. f_equal.
      case_bool_decide as Hd; [|done].
      destruct Hd as [_ Hd]. rewrite Hnil in Hd. by apply elem_of_nil in Hd.
Qed.

Lemma assign_block_Ok (n : nat) (m : ndarray2) (r0 r1 c0 c1 : Z)
    (b : ndarray2) :
  square n m ->
  0 <= r0 <= r1 -> r1 <= Z.of_nat n -> 0 <= c0 <= c1 -> c1 <= Z.of_nat n ->
  shape0 b = r1 - r0 -> shape1 b = c1 - c0 ->
  exists m', assign_block m r0 r1 c0 c1 b = Ok m'.
Proof.
  intros Hsq Hr Hr1 Hc Hc1 Hb0 Hb1. unfold assign_block.
  rewrite (square_shape0 n m Hsq), (square_shape1 n m Hsq).
  rewrite !slice_bound_id by lia.
  replace (Z.max 0 (r1 - r0)) with (r1 - r0) by lia.
  replace (Z.max 0 (c1 - c0)) with (c1 - c0) by lia.
  rewrite Hb0, Hb1, !Z.eqb_refl. simpl. by eexists.
Qed.

(** [damp_matrix] returns on every valid input. *)
Lemma damp_matrix_total (max_degree nr_splines : Z) (t_step damp_factor : Qc)
    (damp_type : DampingMethods) (ddt : Z) (damp_dipole : bool)
    (weights : vector) :
  0 <= max_degree -> 0 <= nr_splines -> 0 <= ddt <= 2 ->
  quadrature_ready' t_step ddt ->
  dampingtype max_degree damp_type damp_dipole = Ok weights ->
  Z.of_nat (length weights) = nm_total max_degree ->
  exists matrix damp_diag,
    damp_matrix' max_degree nr_splines t_step damp_factor damp_type ddt
      damp_dipole = Ok (matrix, damp_diag).
Proof.
  intros Hdeg Hnr Hddt Hq Hw Hlen.
  pose proof (nm_total_nonneg max_degree Hdeg) as Hnm.
  unfold damp_matrix, np_zeros2.
  destruct (Z.ltb_spec (nm_total max_degree * nr_splines) 0) as [?|Hn];
    [nia|]. simpl.
  destruct (decide (damp_factor <> 0%Qc)); [|by eexists _, _].
  rewrite Hw. simpl.
  rewrite (foldM_nested
             (write_block' (nm_total max_degree) nr_splines t_step
                damp_factor ddt weights) (band nr_splines)).
  fold (band_pairs nr_splines).
  set (dim := Z.to_nat (nm_total max_degree * nr_splines)).
  destruct (foldM_total_invariant (square dim)
              (write_block' (nm_total max_degree) nr_splines t_step
                 damp_factor ddt weights)
              (band_pairs nr_splines) (replicate dim (replicate dim 0%Qc)))
    as (m & -> & _); [|apply square_zeros|by eexists _, _].
  intros m [i j] Hp Hsq. apply elem_of_band_pairs in Hp.
  unfold write_block. simpl.
  destruct (quadrature_ready_total i j nr_splines t_step ddt Hddt Hq)
    as [v ->]. simpl.
  destruct (assign_block_Ok dim m (i * nm_total max_degree)
              ((i + 1) * nm_total max_degree) (j * nm_total max_degree)
              ((j + 1) * nm_total max_degree)
              (np_scale2 (damp_factor * v)%Qc (np_diag weights)) Hsq)
    as [m' Hm']; try (subst dim; nia).
  - rewrite np_scale2_shape0, np_diag_shape0. lia.
  - rewrite np_scale2_shape1, np_diag_shape1. lia.
  - exists m'. split; [done|]. by eapply assign_block_square.
Qed.

Lemma valid_call_returns (max_degree nr_splines : Z) (t_step damp_factor : Qc)
    (damp_type : DampingMethods) (ddt : Z) (damp_dipole : bool) :
  valid_call' max_degree nr_splines t_step damp_type ddt damp_dipole ->
  exists matrix damp_diag,
    damp_matrix' max_degree nr_splines t_step damp_factor damp_type ddt
      damp_dipole = Ok (matrix, damp_diag).
Proof.
  intros (Hdeg & Hnr & Hddt & Hq & weights & Hw & Hlen).
  by eapply damp_matrix_total.
Qed.

(** With [damp_factor = 0] nothing but [np.zeros] is run. *)
Lemma damp_matrix_zero_factor (max_degree nr_splines : Z) (t_step : Qc)
    (damp_type : DampingMethods) (ddt : Z) (damp_dipole : bool) :
  damp_matrix' max_degree nr_splines t_step 0%Qc damp_type ddt damp_dipole
  = matrix ← np_zeros2 (nm_total max_degree * nr_splines)
               (nm_total max_degree * nr_splines);
    Ok (matrix, []).
Proof.
  unfold damp_matrix. destruct (np_zeros2 _ _) as [m|e]; simpl; [|done].
  by destruct (decide (0%Qc <> 0%Qc)).
Qed.

Lemma np_zeros2_Ok (n : Z) :
  0 <= n ->
  np_zeros2 n n
  = Ok (replicate (Z.to_nat n) (replicate (Z.to_nat n) 0%Qc)).
Proof. intros H. unfold np_zeros2. by destruct (Z.ltb_spec n 0); [lia|]. Qed.

Lemma np_zeros2_negative (n : Z) : n < 0 -> np_zeros2 n n = Raise ValueError.
Proof. intros H. unfold np_zeros2. by destruct (Z.ltb_spec n 0); [|lia]. Qed.

(** C3. In the matrix that [damp_matrix] returns, every block [(i, j)] of
    [nm_total] rows and columns with [|i - j| > 3] is zero; and
    [damp_matrix] does return a matrix on every valid input. *)
Theorem damp_matrix_banded (max_degree nr_splines : Z)
    (t_step damp_factor : Qc) (damp_type : DampingMethods) (ddt : Z)
    (damp_dipole : bool) :
  (forall (matrix : ndarray2) (damp_diag : vector),
      damp_matrix' max_degree nr_splines t_step damp_factor damp_type ddt
        damp_dipole = Ok (matrix, damp_diag) ->
      forall i j k l : Z,
        0 <= i < nr_splines -> 0 <= j < nr_splines ->
        0 <= k < nm_total max_degree -> 0 <= l < nm_total max_degree ->
        3 < Z.abs (i - j) ->
        entry matrix (Z.to_nat (i * nm_total max_degree + k))
                     (Z.to_nat (j * nm_total max_degree + l))
        = Some 0%Qc)
  /\ (valid_call' max_degree nr_splines t_step damp_type ddt damp_dipole ->
      exists matrix damp_diag,
        damp_matrix' max_degree nr_splines t_step damp_factor damp_type ddt
          damp_dipole = Ok (matrix, damp_diag)).
Proof.
  split; [|apply valid_call_returns].
  intros matrix damp_diag H i j k l Hi Hj Hk Hl Hband.
  rewrite (damp_matrix_entry _ _ _ _ _ _ _ _ _ _ _ H) by nia.
  f_equal. case_bool_decide as Hd; [|done].
  destruct Hd as [_ Hd]. rewrite !Z2Nat.id in Hd by nia.
  apply elem_of_band_pairs in Hd as (_ & _ & Hd).
  assert ((i * nm_total max_degree + k) / nm_total max_degree = i) as Ei
    by (apply div_block; lia).
  assert ((j * nm_total max_degree + l) / nm_total max_degree = j) as Ej
    by (apply div_block; lia).
  lia.
Qed.

(** C4. With [damp_factor = 0] [damp_matrix] returns the all-zero square
    matrix of dimension [nm_total * nr_splines] and an empty weight vector,
    whatever the other arguments, and does not raise. The dimension of a
    matrix is not negative; for the integers whose product is negative,
    which give no dimension, [np.zeros] raises [ValueError]. *)
Theorem damp_matrix_disabled (max_degree nr_splines : Z) (t_step : Qc)
    (damp_type : DampingMethods) (ddt : Z) (damp_dipole : bool) :
  (0 <= nm_total max_degree * nr_splines ->
   damp_matrix' max_degree nr_splines t_step 0%Qc damp_type ddt damp_dipole
   = Ok (replicate (Z.to_nat (nm_total max_degree * nr_splines))
           (replicate (Z.to_nat (nm_total max_degree * nr_splines)) 0%Qc),
         []))
  /\ (nm_total max_degree * nr_splines < 0 ->
      damp_matrix' max_degree nr_splines t_step 0%Qc damp_type ddt
        damp_dipole = Raise ValueError).
Proof.
  rewrite damp_matrix_zero_factor. split; intros H.
  - by rewrite np_zeros2_Ok.
  - by rewrite np_zeros2_negative.
Qed.

(** C6, amended. [damp_matrix] and [integrator] do not check [ddt]. With
    [damp_factor = 0], [damp_matrix] returns the all-zero matrix for every
    [ddt]. When [integrator] raises, the exception is the one that
    [newton_cotes] or [bsplines.derivatives] raised, or the
    [ZeroDivisionError] of [t_step / nc_order], which needs [ddt = 3], or an
    [IndexError] of a read of the weights or of the table. *)
Theorem ddt_is_not_validated (spl1 spl2 max_degree nr_splines : Z)
    (t_step : Qc) (damp_type : DampingMethods) (ddt : Z)
    (damp_dipole : bool) :
  (0 <= nm_total max_degree * nr_splines ->
   damp_matrix' max_degree nr_splines t_step 0%Qc damp_type ddt damp_dipole
   = Ok (replicate (Z.to_nat (nm_total max_degree * nr_splines))
           (replicate (Z.to_nat (nm_total max_degree * nr_splines)) 0%Qc),
         []))
  /\ (forall e : exn,
        integrator' spl1 spl2 nr_splines t_step ddt = Raise e ->
        newton_cotes (2 * (spl_degree - ddt)) = Raise e
        \/ (ddt = 3 /\ e = ZeroDivisionError)
        \/ derivatives t_step (2 * (spl_degree - ddt) + 1) ddt = Raise e
        \/ e = IndexError).
Proof.
  split.
  - intros H. rewrite damp_matrix_zero_factor. by rewrite np_zeros2_Ok.
  - intros e. unfold integrator.
    destruct (newton_cotes _) as [newcot|e1]; simpl; [|intros [= ->]; by left].
    unfold float_div.
    destruct (Z.eqb_spec (2 * (spl_degree - ddt)) 0) as [E|E]; simpl.
    { intros [= <-]. right. left. unfold spl_degree in E. split; [lia|done]. }
    destruct (derivatives _ _ _) as [spl|e2]; simpl;
      [|intros [= ->]; by right; right; left].
    intros H. do 3 right.
    apply foldM_raise in H as (acc & t & _ & H).
    destruct (integrate_step _ _ _ _ _ _) as [v|e3] eqn:E3; simpl in H;
      [done|]. injection H as ->.
    unfold integrate_step in E3.
    apply foldM_raise in E3 as (acc' & stp & _ & H).
    destruct (np_index newcot stp) as [w|e4] eqn:E4; simpl in H;
      [|injection H as ->; by apply np_index_raise in E4].
    destruct (np_index2 spl (t - spl1) stp) as [x|e5] eqn:E5; simpl in H;
      [|injection H as ->; by apply np_index2_raise in E5].
    destruct (np_index2 spl (t - spl2) stp) as [y|e6] eqn:E6; simpl in H;
      [done|injection H as ->; by apply np_index2_raise in E6].
Qed.

End MatrixProperties.

(** ** The damping norm *)

Lemma Qc_square_nonneg (g : Qc) : (0 <= g * g)%Qc.
Proof.
  destruct (Qclt_le_dec g 0) as [H|H].
  - replace (g * g)%Qc with ((- g) * (- g))%Qc by ring.
    assert (0 <= - g)%Qc as Hg.
    { apply Qclt_le_weak in H. apply Qcopp_le_compat in H.
      by replace (- 0)%Qc with 0%Qc in H by ring. }
    by apply Qcmult_nonneg_nonneg.
  - by apply Qcmult_nonneg_nonneg.
Qed.

Lemma Qc_div_nonneg (x t : Qc) : (0 <= x)%Qc -> (0 < t)%Qc -> (0 <= x / t)%Qc.
Proof.
  intros Hx Ht. unfold Qcdiv. apply Qcmult_nonneg_nonneg; [done|].
  apply Qclt_le_weak. by apply Qcinv_pos.
Qed.

Lemma Qc_div_0_l (t : Qc) : (0 / t)%Qc = 0%Qc.
Proof. unfold Qcdiv. ring. Qed.

Lemma dot_nonneg (v w : vector) :
  Forall (Qcle 0) v -> Forall (Qcle 0) w ->
  (0 <= foldr Qcplus 0 (zip_with Qcmult v w))%Qc.
Proof.
  intros Hv. revert w. induction Hv as [|x v Hx Hv IH]; intros w Hw; simpl.
  - apply Qcle_refl.
  - destruct Hw as [|y w Hy Hw]; simpl; [apply Qcle_refl|].
    apply Qcplus_nonneg_nonneg; [by apply Qcmult_nonneg_nonneg|by apply IH].
Qed.

Lemma np_dot_Ok (v w : vector) :
  length v = length w ->
  np_dot v w = Ok (foldr Qcplus 0%Qc (zip_with Qcmult v w)).
Proof. intros H. unfold np_dot. by rewrite H, Nat.eqb_refl. Qed.

Lemma np_dot_zeros (v : vector) (k : nat) :
  length v = k -> np_dot v (replicate k 0%Qc) = Ok 0%Qc.
Proof.
  intros H. rewrite np_dot_Ok by (by rewrite length_replicate). f_equal.
  subst k. induction v as [|x v IH]; simpl; [done|].
  rewrite IH. ring.
Qed.

(** The combination of rows of [k] columns has [k] columns. *)
Lemma matmul_fold_length (k : nat) (a : ndarray2) (v : vector) :
  Forall (fun row => length row = k) a ->
  length (foldr (fun xr acc =>
                   zip_with Qcplus (Qcmult (fst xr) <$> snd xr) acc)
                (replicate k 0%Qc) (zip v a)) = k.
Proof.
  intros Ha. revert v. induction Ha as [|row a Hrow Ha IH]; intros v.
  - destruct v; simpl; apply length_replicate.
  - destruct v as [|x v]; simpl; [apply length_replicate|].
    rewrite length_zip_with, length_fmap, IH, Hrow. lia.
Qed.

Lemma matmul_fold_zeros (k n : nat) (v : vector) :
  foldr (fun xr acc => zip_with Qcplus (Qcmult (fst xr) <$> snd xr) acc)
        (replicate k 0%Qc) (zip v (replicate n (replicate k 0%Qc)))
  = replicate k 0%Qc.
Proof.
  revert v. induction n as [|n IH]; intros v; simpl.
  - by destruct v.
  - destruct v as [|x v]; simpl; [done|]. rewrite IH.
    rewrite fmap_replicate, Qcmult_0_r.
    rewrite zip_with_replicate_r_eq by apply length_replicate.
    rewrite fmap_replicate. unfold flip. by rewrite Qcplus_0_r.
Qed.

Lemma np_matmul_Ok (k : nat) (v : vector) (a : ndarray2) :
  length v = length a -> a <> [] ->
  Forall (fun row => length row = k) a ->
  exists g, np_matmul v a = Ok g /\ length g = k.
Proof.
  intros Hlen Hne Ha. unfold np_matmul, shape0, shape1.
  rewrite Hlen, Z.eqb_refl.
  destruct a as [|row a]; [done|]. simpl hd.
  inversion Ha as [|? ? Hrow Ha']; subst.
  rewrite Nat2Z.id. eexists. split; [done|].
  by apply matmul_fold_length.
Qed.

Lemma np_matmul_zeros (k n : nat) (v : vector) :
  length v = n -> n <> 0%nat ->
  np_matmul v (replicate n (replicate k 0%Qc)) = Ok (replicate k 0%Qc).
Proof.
  intros Hlen Hn. unfold np_matmul, shape0, shape1.
  rewrite length_replicate, Hlen, Z.eqb_refl.
  destruct n as [|n]; [done|]. simpl hd.
  rewrite length_replicate, Nat2Z.id. f_equal.
  apply (matmul_fold_zeros k (S n)).
Qed.

Lemma np_slice_window {A : Type} (l : list A) (t : Z) :
  0 <= t -> t + 4 <= Z.of_nat (length l) ->
  np_slice l t (t + (spl_degree + 1)) = take 4 (drop (Z.to_nat t) l).
Proof.
  intros H0 H1. unfold np_slice, spl_degree.
  rewrite !slice_bound_id by lia. f_equal. lia.
Qed.

Lemma np_setitem_Ok (a : vector) (t : Z) (x : Qc) :
  0 <= t < Z.of_nat (length a) ->
  np_setitem a t x = Ok (<[Z.to_nat t := x]> a).
Proof.
  intros H. unfold np_setitem.
  destruct (Z.ltb_spec t 0); [lia|].
  destruct (Z.leb_spec 0 t); [|lia].
  by destruct (Z.ltb_spec t (Z.of_nat (length a))); [|lia].
Qed.

(** A loop [for t in l: norm[t] = f(t)]: what it stores. *)
Lemma setitem_loop (f : Z -> result Qc) (l : list Z) (norm : vector) :
  (forall t, t ∈ l ->
             0 <= t < Z.of_nat (length norm) /\ exists x, f t = Ok x) ->
  exists norm',
    foldM (fun norm t => x ← f t; np_setitem norm t x) l norm = Ok norm'
    /\ length norm' = length norm
    /\ forall i : nat,
         norm' !! i
         = if bool_decide (Z.of_nat i ∈ l)
           then match f (Z.of_nat i) with Ok x => Some x | Raise _ => None end
           else norm !! i.
Proof.
  revert norm. induction l as [|t l IH]; intros norm Hl; simpl.
  - exists norm. repeat split; try done.
  - destruct (Hl t) as (Ht & x & Hx); [left|].
    destruct (IH (<[Z.to_nat t := x]> norm)) as (norm' & Hfold & Hlen & Hget).
    { intros t' Ht'. rewrite length_insert. apply Hl. by right. }
    exists norm'. rewrite length_insert in Hlen. split; [|split; [done|]].
    { rewrite Hx. simpl. rewrite np_setitem_Ok by done. exact Hfold. }
    intros i. rewrite Hget.
    rewrite (bool_decide_ext _ _ (elem_of_cons l (Z.of_nat i) t)), bool_decide_or.
    destruct (bool_decide (Z.of_nat i ∈ l)); [by rewrite orb_true_r|].
    rewrite orb_false_r. case_bool_decide as Hi.
    + subst t. rewrite Nat2Z.id, Hx. apply list_lookup_insert_eq. lia.
    + apply list_lookup_insert_ne. lia.
Qed.

Lemma foldM_fixed {A S : Type} (f : S -> A -> result S) (l : list A) (s : S) :
  (forall x, x ∈ l -> f s x = Ok s) -> foldM f l s = Ok s.
Proof.
  induction l as [|x l IH]; intros H; simpl; [done|].
  rewrite H by left. simpl. apply IH. intros y Hy. apply H. by right.
Qed.

Lemma np_slice_from_3 {A : Type} (l : list A) :
  np_slice_from l spl_degree = drop 3 l.
Proof.
  unfold np_slice_from, slice_bound, spl_degree. simpl.
  destruct (Z.le_gt_cases 3 (Z.of_nat (length l))) as [H|H].
  - by rewrite Z.min_l by done.
  - rewrite Z.min_r, Nat2Z.id by lia.
    rewrite (drop_ge l (length l)); [|lia]. rewrite (drop_ge l 3); [done|]. lia.
Qed.

Lemma norm_at_Ok (nm : nat) (damp_fac spl : vector) (coeffsp : ndarray2)
    (t : Z) :
  length damp_fac = nm -> length spl = 4%nat ->
  Forall (fun row => length row = nm) coeffsp ->
  0 <= t -> t + 4 <= Z.of_nat (length coeffsp) ->
  exists x, norm_at damp_fac spl coeffsp t = Ok x
            /\ (Forall (Qcle 0) damp_fac -> (0 <= x)%Qc).
Proof.
  intros Hfac Hspl Hrect H0 H1. unfold norm_at.
  rewrite np_slice_window by done.
  destruct (np_matmul_Ok nm spl (take 4 (drop (Z.to_nat t) coeffsp)))
    as (g & -> & Hg).
  - rewrite length_take, length_drop. lia.
  - intros E.
    assert (length (take 4 (drop (Z.to_nat t) coeffsp)) = 4%nat) as Hl
      by (rewrite length_take, length_drop; lia).
    by rewrite E in Hl.
  - by apply Forall_take, Forall_drop.
  - simpl. rewrite np_dot_Ok by (by rewrite length_fmap, Hg).
    eexists. split; [done|]. intros Hpos. apply dot_nonneg; [done|].
    apply Forall_fmap, Forall_forall. intros y _. apply Qc_square_nonneg.
Qed.

(** The loop of [damp_norm] returns an array of one entry per row of the
    series, and the entry [t] is what the body computes for [t]. *)
Lemma damp_norm_loop_spec (nm : nat) (damp_fac spl : vector) (coeff : ndarray2) :
  length damp_fac = nm -> length spl = 4%nat ->
  Forall (fun row => length row = nm) coeff -> coeff <> [] ->
  exists norm,
    damp_norm_loop damp_fac spl coeff = Ok norm
    /\ length norm = length coeff
    /\ forall t : nat,
         (t < length coeff)%nat ->
         exists x,
           norm_at damp_fac spl
             (replicate 3 (replicate nm 0%Qc) ++ coeff) (Z.of_nat t) = Ok x
           /\ norm !! t = Some x
           /\ (Forall (Qcle 0) damp_fac -> (0 <= x)%Qc).
Proof.
  intros Hfac Hspl Hrect Hne. unfold damp_norm_loop, np_zeros.
  assert (0 < length coeff)%nat as HT by (destruct coeff; [done|simpl; lia]).
  destruct (Z.ltb_spec (Z.of_nat (length coeff)) 0) as [?|_]; [lia|].
  rewrite bind_Ok.
  destruct (np_index_Ok coeff 0) as (row0 & -> & Hrow0); [lia|].
  rewrite bind_Ok.
  assert (length row0 = nm) as ->.
  { rewrite Forall_lookup in Hrect. by eapply Hrect. }
  unfold np_zeros2, np_vstack.
  destruct (Z.ltb_spec (Z.of_nat nm) 0) as [?|_]; [lia|].
  change ((spl_degree <? 0) || false) with false. cbv iota.
  rewrite bind_Ok, !Nat2Z.id.
  change (Z.to_nat spl_degree) with 3%nat.
  set (coeffsp := replicate 3 (replicate nm 0%Qc) ++ coeff).
  assert (Forall (fun row => length row = nm) coeffsp) as Hsp.
  { apply Forall_app. split; [|done].
    apply Forall_replicate, length_replicate. }
  assert (length coeffsp = (3 + length coeff)%nat) as Hlen.
  { unfold coeffsp. by rewrite length_app, length_replicate. }
  destruct (setitem_loop (norm_at damp_fac spl coeffsp)
              (range 0 (Z.of_nat (length coeff)))
              (replicate (length coeff) 0%Qc))
    as (norm & Hfold & Hnlen & Hget).
  { intros t Ht. apply elem_of_range in Ht. rewrite length_replicate.
    split; [lia|].
    destruct (norm_at_Ok nm damp_fac spl coeffsp t Hfac Hspl Hsp)
      as (x & Hx & _); [lia|lia|].
    by exists x. }
  exists norm. rewrite length_replicate in Hnlen.
  split; [exact Hfold|]. split; [done|].
  intros t Ht.
  destruct (norm_at_Ok nm damp_fac spl coeffsp (Z.of_nat t) Hfac Hspl Hsp)
    as (x & Hx & Hpos); [lia|lia|].
  exists x. split; [done|]. split; [|done].
  rewrite Hget, Hx. rewrite bool_decide_eq_true_2; [done|].
  apply elem_of_range. lia.
Qed.

Section NormProperties.

Variable derivatives : Qc -> Z -> Z -> result ndarray2.

Local Abbreviation damp_norm' := (damp_norm derivatives).

(** C7. For non-negative weights, a series of [T >= 3] rows and
    [t_step > 0], [damp_norm] returns [T - 3] non-negative numbers: the
    array [norm] of the loop has [T] entries, its first 3 entries are
    dropped, and the others are divided by [t_step], in their order. *)
Theorem damp_norm_sequence (nm : nat) (damp_fac : vector) (coeff : ndarray2)
    (ddt : Z) (t_step : Qc) (tbl : ndarray2) :
  Forall (Qcle 0) damp_fac -> length damp_fac = nm ->
  Forall (fun row => length row = nm) coeff ->
  (3 <= length coeff)%nat ->
  (0 < t_step)%Qc ->
  derivatives t_step 1 ddt = Ok tbl -> length (concat tbl) = 4%nat ->
  exists norm : vector,
    damp_norm_loop damp_fac (concat tbl) coeff = Ok norm
    /\ length norm = length coeff
    /\ (forall t : nat,
          (t < length coeff)%nat ->
          exists x,
            norm_at damp_fac (concat tbl)
              (replicate 3 (replicate nm 0%Qc) ++ coeff) (Z.of_nat t) = Ok x
            /\ norm !! t = Some x)
    /\ damp_norm' damp_fac coeff ddt t_step
       = Ok ((fun x => x / t_step)%Qc <$> drop 3 norm)
    /\ length ((fun x => x / t_step)%Qc <$> drop 3 norm)
       = (length coeff - 3)%nat
    /\ Forall (Qcle 0) ((fun x => x / t_step)%Qc <$> drop 3 norm).
Proof.
  intros Hpos Hfac Hrect HT Ht Hd Hspl.
  destruct (damp_norm_loop_spec nm damp_fac (concat tbl) coeff)
    as (norm & Hloop & Hlen & Hget); try done.
  { intros ->. simpl in HT. lia. }
  exists norm. split; [done|]. split; [done|]. split.
  { intros t Hlt. destruct (Hget t Hlt) as (x & Hx & Hn & _). by exists x. }
  split.
  { unfold damp_norm. rewrite Hd. simpl. rewrite Hloop. simpl.
    by rewrite np_slice_from_3. }
  split.
  { by rewrite length_fmap, length_drop, Hlen. }
  apply Forall_fmap, Forall_drop, Forall_lookup. intros i x Hi. simpl.
  apply Qc_div_nonneg; [|done].
  destruct (Hget i) as (x' & _ & Hx' & Hnonneg).
  { rewrite <- Hlen. by eapply lookup_lt_Some. }
  rewrite Hi in Hx'. injection Hx' as <-. by apply Hnonneg.
Qed.

(** C8. An all-zero series of [T] rows gives, for [t_step <> 0], an
    all-zero sequence of [T - 3] entries. *)
Theorem damp_norm_zero_series (nm T : nat) (damp_fac : vector) (ddt : Z)
    (t_step : Qc) (tbl : ndarray2) :
  length damp_fac = nm -> (1 <= T)%nat -> t_step <> 0%Qc ->
  derivatives t_step 1 ddt = Ok tbl -> length (concat tbl) = 4%nat ->
  damp_norm' damp_fac (replicate T (replicate nm 0%Qc)) ddt t_step
  = Ok (replicate (T - 3) 0%Qc).
Proof.
  intros Hfac HT Ht Hd Hspl. unfold damp_norm. rewrite Hd. simpl.
  assert (damp_norm_loop damp_fac (concat tbl)
            (replicate T (replicate nm 0%Qc)) = Ok (replicate T 0%Qc))
    as ->.
  { unfold damp_norm_loop, np_zeros. rewrite length_replicate.
    destruct (Z.ltb_spec (Z.of_nat T) 0) as [?|_]; [lia|].
    rewrite bind_Ok.
    destruct (np_index_Ok (replicate T (replicate nm 0%Qc)) 0)
      as (row0 & -> & Hrow0); [rewrite length_replicate; lia|].
    apply lookup_replicate in Hrow0 as [-> _].
    rewrite bind_Ok. unfold np_zeros2, np_vstack. rewrite length_replicate.
    destruct (Z.ltb_spec (Z.of_nat nm) 0) as [?|_]; [lia|].
    change ((spl_degree <? 0) || false) with false. cbv iota.
    rewrite bind_Ok, !Nat2Z.id. change (Z.to_nat spl_degree) with 3%nat.
    rewrite <- replicate_add.
    apply foldM_fixed. intros t Hrange. apply elem_of_range in Hrange.
    unfold norm_at.
    rewrite np_slice_window by (rewrite ?length_replicate; lia).
    rewrite drop_replicate, take_replicate.
    replace (4 `min` (3 + T - Z.to_nat t))%nat with 4%nat by lia.
    rewrite np_matmul_zeros by done. simpl.
    rewrite fmap_replicate, Qcmult_0_r, np_dot_zeros by done. simpl.
    rewrite np_setitem_Ok by (rewrite length_replicate; lia).
    by rewrite insert_replicate. }
  simpl. rewrite np_slice_from_3, drop_replicate, fmap_replicate.
  by rewrite Qc_div_0_l.
Qed.

(** C10, amended. For a series of [1 <= T <= 3] rows [damp_norm] returns
    the empty sequence: the loop runs [T] times on full windows of 4
    rows, and [norm[3:]] is empty. For a series of no row, [coeff[0]]
    raises [IndexError]. *)
Theorem damp_norm_short_series (nm : nat) (damp_fac : vector)
    (coeff : ndarray2) (ddt : Z) (t_step : Qc) (tbl : ndarray2) :
  length damp_fac = nm ->
  Forall (fun row => length row = nm) coeff ->
  (1 <= length coeff <= 3)%nat ->
  derivatives t_step 1 ddt = Ok tbl -> length (concat tbl) = 4%nat ->
  (exists norm : vector,
      damp_norm_loop damp_fac (concat tbl) coeff = Ok norm
      /\ length norm = length coeff)
  /\ damp_norm' damp_fac coeff ddt t_step = Ok []
  /\ damp_norm' damp_fac [] ddt t_step = Raise IndexError.
Proof.
  intros Hfac Hrect HT Hd Hspl.
  destruct (damp_norm_loop_spec nm damp_fac (concat tbl) coeff)
    as (norm & Hloop & Hlen & _); try done.
  { intros ->. simpl in HT. lia. }
  split; [by exists norm|]. split.
  - unfold damp_norm. rewrite Hd. simpl. rewrite Hloop. simpl.
    rewrite np_slice_from_3, drop_ge by lia. done.
  - unfold damp_norm. by rewrite Hd.
Qed.

End NormProperties.

(** ** The theorems on the reference instance *)

Lemma reference_quadrature_ready_0 :
  quadrature_ready Reference.newton_cotes Reference.derivatives 1%Qc 0.
Proof.
  eexists. eexists.
  split; [reflexivity|]. split; [reflexivity|].
  split; [reflexivity|]. split; [reflexivity|].
  repeat constructor.
Qed.

Lemma reference_valid_call :
  valid_call Reference.newton_cotes Reference.derivatives
    Reference.dampingtype 1 5 1%Qc Uniform 0 true.
Proof.
  unfold valid_call.
  split; [lia|]. split; [lia|]. split; [lia|].
  split; [apply reference_quadrature_ready_0|].
  eexists. split; reflexivity.
Qed.

(** Over the rationals the quadrature is exact on the reference instance:
    the integral of the square of a cubic B-spline over its four intervals
    is 151/315 of the time step. *)
Example reference_self_overlap :
  Reference.integrator 3 3 8 1%Qc 0 = Ok (Reference.q 151 315).
Proof. vm_compute. f_equal. by apply Qc_is_canon. Qed.

Lemma integrator_overlap_range_witness :
  3 < Z.abs (0 - 7)
  /\ Reference.integrator 0 7 8 (Reference.q 1 2) 1 = Ok 0%Qc.
Proof.
  split; [reflexivity|].
  edestruct (integrator_overlap_range Reference.newton_cotes
               Reference.derivatives 0 7 8 (Reference.q 1 2) 1)
    as (_ & _ & H); [reflexivity|lia|reflexivity|].
  apply H. reflexivity.
Defined.

Lemma integrator_table_reads_in_bounds_witness :
  (forall t stp,
      t ∈ range (low 3 5) (high 3 5 8 + 1) -> stp ∈ range 0 (2 * (3 - 1) + 1) ->
      0 <= t - 3 <= 3 /\ 0 <= t - 5 <= 3 /\ 0 <= stp <= 2 * (3 - 1))
  /\ exists v, Reference.integrator 3 5 8 (Reference.q 1 2) 1 = Ok v.
Proof.
  edestruct (integrator_table_reads_in_bounds Reference.newton_cotes
               Reference.derivatives 3 5 8 (Reference.q 1 2) 1)
    as [Hreads Hret];
    [lia|reflexivity|reflexivity|reflexivity|reflexivity|repeat constructor|].
  split; [|exact Hret].
  intros t stp Ht Hstp. destruct (Hreads t stp Ht Hstp) as (H1 & H2 & H3 & _).
  done.
Defined.

Lemma damp_matrix_banded_witness :
  exists matrix damp_diag,
    Reference.damp_matrix 1 5 1%Qc (Reference.q 1 1000) Uniform 0 true
    = Ok (matrix, damp_diag)
    /\ forall k l : Z,
         0 <= k < 3 -> 0 <= l < 3 ->
         entry matrix (Z.to_nat (0 * 3 + k)) (Z.to_nat (4 * 3 + l)) = Some 0%Qc.
Proof.
  destruct (damp_matrix_banded Reference.newton_cotes Reference.derivatives
              Reference.dampingtype 1 5 1%Qc (Reference.q 1 1000) Uniform 0
              true) as [Hband Hret].
  destruct (Hret reference_valid_call) as (matrix & damp_diag & E).
  exists matrix, damp_diag. split; [exact E|].
  intros k l Hk Hl.
  apply (Hband matrix damp_diag E 0 4 k l); [lia|lia|exact Hk|exact Hl|].
  reflexivity.
Defined.

Lemma damp_matrix_disabled_witness :
  Reference.damp_matrix 1 5 1%Qc 0%Qc Uniform 0 true
  = Ok (replicate 15 (replicate 15 0%Qc), []).
Proof.
  apply (proj1 (damp_matrix_disabled Reference.newton_cotes
                  Reference.derivatives Reference.dampingtype 1 5 1%Qc
                  Uniform 0 true)).
  unfold nm_total. lia.
Defined.

(** A derivative order of 7 is accepted without an error when
    [damp_factor] is 0. *)
Lemma damp_matrix_accepts_ddt_7 :
  Reference.damp_matrix 1 5 1%Qc 0%Qc Uniform 7 true
  = Ok (replicate 15 (replicate 15 0%Qc), []).
Proof. reflexivity. Qed.

Lemma ddt_is_not_validated_witness :
  Reference.damp_matrix 1 5 1%Qc 0%Qc Uniform 7 true
  = Ok (replicate 15 (replicate 15 0%Qc), [])
  /\ (Reference.newton_cotes (2 * (spl_degree - 7)) = Raise CollaboratorError
      \/ (7 = 3 /\ CollaboratorError = ZeroDivisionError)
      \/ Reference.derivatives 1%Qc (2 * (spl_degree - 7) + 1) 7
         = Raise CollaboratorError
      \/ CollaboratorError = IndexError).
Proof.
  destruct (ddt_is_not_validated Reference.newton_cotes Reference.derivatives
              Reference.dampingtype 0 0 1 5 1%Qc Uniform 7 true)
    as [Hzero Hraise].
  split.
  - apply Hzero. unfold nm_total. lia.
  - apply Hraise. reflexivity.
Defined.

Lemma damp_norm_sequence_witness :
  exists norm : vector,
    length norm = 5%nat
    /\ Reference.damp_norm [1; 1; 1]%Qc
         [[1; 1; 1]; [1; 1; 1]; [1; 1; 1]; [1; 1; 1]; [1; 0; 1]]%Qc 2
         (Reference.q 1 2)
       = Ok ((fun x => x / Reference.q 1 2)%Qc <$> drop 3 norm)
    /\ Forall (Qcle 0) ((fun x => x / Reference.q 1 2)%Qc <$> drop 3 norm).
Proof.
  edestruct (damp_norm_sequence Reference.derivatives 3 [1; 1; 1]%Qc
               [[1; 1; 1]; [1; 1; 1]; [1; 1; 1]; [1; 1; 1]; [1; 0; 1]]%Qc 2
               (Reference.q 1 2))
    as (norm & _ & Hlen & _ & Hret & _ & Hpos).
  - repeat constructor; discriminate.
  - reflexivity.
  - repeat constructor.
  - simpl. lia.
  - reflexivity.
  - reflexivity.
  - reflexivity.
  - exists norm. split; [exact Hlen|]. split; [exact Hret|exact Hpos].
Defined.

Lemma damp_norm_zero_series_witness :
  Reference.damp_norm [1; 1; 1]%Qc (replicate 5 (replicate 3 0%Qc)) 1
    (Reference.q 1 2)
  = Ok (replicate 2 0%Qc).
Proof.
  eapply (damp_norm_zero_series Reference.derivatives 3 5 [1; 1; 1]%Qc 1
            (Reference.q 1 2)).
  - reflexivity.
  - lia.
  - intros H. discriminate (f_equal this H).
  - reflexivity.
  - reflexivity.
Defined.

Lemma damp_norm_short_series_witness :
  Reference.damp_norm [1; 1; 1]%Qc [[1; 1; 1]; [1; 0; 1]]%Qc 0 1%Qc = Ok [].
Proof.
  edestruct (damp_norm_short_series Reference.derivatives 3 [1; 1; 1]%Qc
               [[1; 1; 1]; [1; 0; 1]]%Qc 0 1%Qc) as (_ & H & _).
  - reflexivity.
  - repeat constructor.
  - simpl. lia.
  - reflexivity.
  - reflexivity.
  - exact H.
Defined.

(** An empty series makes [coeff[0]] raise. *)
Lemma damp_norm_empty_series_raises :
  Reference.damp_norm [1; 1; 1]%Qc [] 0 1%Qc = Raise IndexError.
Proof. reflexivity. Qed.

(** * Further properties of the code *)

(** ** The overlap integrator *)

Lemma range_shift (a b : Z) : range (a + 1) (b + 1) = Z.add 1 <$> range a b.
Proof.
  unfold range. rewrite fmap_add_seqZ. f_equal; lia.
Qed.

Lemma range_first (a b : Z) : a < b -> exists l, range a b = a :: l.
Proof.
  intros H. unfold range. rewrite seqZ_cons by lia. by eexists.
Qed.

Section IntegratorStructure.

Variable newton_cotes : Z -> result vector.
Variable derivatives : Qc -> Z -> Z -> result ndarray2.

Local Abbreviation integrator' := (integrator newton_cotes derivatives).

Lemma integrate_step_shift (newcot : vector) (spl : ndarray2)
    (spl1 spl2 nc_order t : Z) :
  integrate_step newcot spl (spl1 + 1) (spl2 + 1) nc_order (1 + t)
  = integrate_step newcot spl spl1 spl2 nc_order t.
Proof.
  unfold integrate_step. apply foldM_ext. intros acc stp _.
  by replace (1 + t - (spl1 + 1)) with (t - spl1) by lia;
     replace (1 + t - (spl2 + 1)) with (t - spl2) by lia.
Qed.

(** When the two splines share no interval, a call that returns returns 0,
    whatever the collaborators delivered. *)
Lemma integrator_empty_value (spl1 spl2 nr_splines : Z) (t_step : Qc)
    (ddt : Z) (v : Qc) :
  high spl1 spl2 nr_splines < low spl1 spl2 ->
  integrator' spl1 spl2 nr_splines t_step ddt = Ok v -> v = 0%Qc.
Proof.
  intros Hlt. unfold integrator.
  destruct (newton_cotes _) as [newcot|e]; simpl; [|done].
  destruct (float_div _ _) as [dt|e]; simpl; [|done].
  destruct (derivatives _ _ _) as [spl|e]; simpl; [|done].
  rewrite range_empty by lia. simpl. by intros [= <-].
Qed.

(** X2. Away from both ends of the spline sequence the overlap integral
    depends on the two splines only through their distance: when
    [max(spl1, spl2) >= 3] and [min(spl1, spl2) + 5 <= nr_splines], moving
    both splines one place up does not change the result. *)
Theorem integrator_interior_shift (spl1 spl2 nr_splines : Z) (t_step : Qc)
    (ddt : Z) :
  3 <= Z.max spl1 spl2 -> Z.min spl1 spl2 + 5 <= nr_splines ->
  integrator newton_cotes derivatives (spl1 + 1) (spl2 + 1) nr_splines t_step
    ddt
  = integrator newton_cotes derivatives spl1 spl2 nr_splines t_step ddt.
Proof.
  intros Hlow Hhigh. unfold integrator.
  destruct (newton_cotes _) as [newcot|e]; simpl; [|done].
  destruct (float_div _ _) as [dt|e]; simpl; [|done].
  destruct (derivatives _ _ _) as [spl|e]; simpl; [|done].
  replace (low (spl1 + 1) (spl2 + 1)) with (low spl1 spl2 + 1)
    by (unfold low, spl_degree; lia).
  replace (high (spl1 + 1) (spl2 + 1) nr_splines + 1)
    with (high spl1 spl2 nr_splines + 1 + 1)
    by (unfold high, spl_degree; lia).
  rewrite range_shift, foldM_fmap.
  apply foldM_ext. intros acc t _.
  by rewrite integrate_step_shift.
Qed.

(** X3. With at most 3 splines no pair of splines shares a valid interval
    (the first one is [t = 3], the last one [t = nr_splines - 1]): once the
    collaborators return and [nc_order] is not 0, [integrator] returns 0 for
    every pair. *)
Theorem integrator_few_splines (spl1 spl2 nr_splines : Z) (t_step : Qc)
    (ddt : Z) (newcot : vector) (spl : ndarray2) :
  nr_splines <= 3 ->
  newton_cotes (2 * (spl_degree - ddt)) = Ok newcot ->
  ddt <> 3 ->
  derivatives t_step (2 * (spl_degree - ddt) + 1) ddt = Ok spl ->
  integrator' spl1 spl2 nr_splines t_step ddt = Ok 0%Qc.
Proof.
  intros Hnr Hnc Hddt Hd. unfold integrator.
  rewrite Hnc. simpl. rewrite float_div_Ok by (unfold spl_degree; lia).
  simpl. rewrite Hd. simpl.
  rewrite range_empty; [done|]. unfold low, high, spl_degree. lia.
Qed.

End IntegratorStructure.

(** ** The damping matrix *)

Lemma diag_entry_eq (d : vector) (i : nat) :
  diag_entry d i i = default 0%Qc (d !! i).
Proof.
  unfold diag_entry, np_diag. rewrite list_lookup_imap.
  destruct (d !! i) as [x|] eqn:E; simpl; [|done].
  rewrite list_lookup_insert_eq; [done|].
  rewrite length_replicate. by eapply lookup_lt_Some.
Qed.

(** The entry of [np.diag(d)] that a block of as many rows as [d] has
    entries receives. *)
Lemma bcast_get_diag (d : vector) (k l : Z) :
  0 <= k < Z.of_nat (length d) -> 0 <= l < Z.of_nat (length d) ->
  bcast_get (np_diag d) k l
  = if k =? l then default 0%Qc (d !! Z.to_nat k) else 0%Qc.
Proof.
  intros Hk Hl. unfold bcast_get. rewrite np_diag_shape0, np_diag_shape1.
  fold (diag_entry d
          (Z.to_nat (if Z.of_nat (length d) =? 1 then 0 else k))
          (Z.to_nat (if Z.of_nat (length d) =? 1 then 0 else l))).
  destruct (Z.eqb_spec (Z.of_nat (length d)) 1) as [E|E].
  - assert (k = 0) as -> by lia. assert (l = 0) as -> by lia.
    simpl. apply diag_entry_eq.
  - destruct (Z.eqb_spec k l) as [->|Hne]; [apply diag_entry_eq|].
    apply diag_entry_ne. lia.
Qed.

Section MatrixStructure.

Variable newton_cotes : Z -> result vector.
Variable derivatives : Qc -> Z -> Z -> result ndarray2.
Variable dampingtype : Z -> DampingMethods -> bool -> result vector.

Local Abbreviation integrator' := (integrator newton_cotes derivatives).
Local Abbreviation damp_matrix' :=
  (damp_matrix newton_cotes derivatives dampingtype).
Local Abbreviation write_block' := (write_block newton_cotes derivatives).
Local Abbreviation valid_call' :=
  (valid_call newton_cotes derivatives dampingtype).

(** A loop of block writes that returns has had every one of its overlap
    integrals returned. *)
Lemma fold_write_block_integrals (nm nr_splines : Z) (t_step damp_factor : Qc)
    (ddt : Z) (damp_diag : vector) (pairs : list (Z * Z)) (m m' : ndarray2)
    (p : Z * Z) :
  foldM (write_block' nm nr_splines t_step damp_factor ddt damp_diag) pairs m
  = Ok m' ->
  p ∈ pairs ->
  exists v, integrator' p.1 p.2 nr_splines t_step ddt = Ok v.
Proof.
  revert m. induction pairs as [|q pairs IH]; intros m; simpl.
  - intros _ Hp. by apply elem_of_nil in Hp.
  - destruct (write_block' _ _ _ _ _ _ m q) as [m1|e] eqn:E; simpl; [|done].
    intros Hfold Hp. apply elem_of_cons in Hp as [->|Hp]; [|by eapply IH].
    unfold write_block in E.
    destruct (integrator' q.1 q.2 nr_splines t_step ddt) as [v|e]; [|done].
    by exists v.
Qed.

(** X4. The matrix that [damp_matrix] returns is square, of
    [nm_total * nr_splines] rows and as many columns. *)
Theorem damp_matrix_shape (max_degree nr_splines : Z) (t_step damp_factor : Qc)
    (damp_type : DampingMethods) (ddt : Z) (damp_dipole : bool)
    (matrix : ndarray2) (damp_diag : vector) :
  damp_matrix' max_degree nr_splines t_step damp_factor damp_type ddt
    damp_dipole = Ok (matrix, damp_diag) ->
  0 <= nm_total max_degree * nr_splines
  /\ Z.of_nat (length matrix) = nm_total max_degree * nr_splines
  /\ Forall (fun row => Z.of_nat (length row)
                        = nm_total max_degree * nr_splines) matrix.
Proof.
  intros H. pose proof (damp_matrix_square _ _ _ _ _ _ _ _ _ _ _ _ H) as [Hl Hr].
  apply damp_matrix_inv in H as [Hn _].
  split; [done|]. split; [lia|].
  apply Forall_forall. intros row Hrow.
  rewrite Forall_forall in Hr. rewrite (Hr row Hrow). lia.
Qed.

(** X5. Inside the band, the block [(i, j)] of the returned matrix is the
    overlap integral of the splines [i] and [j], times [damp_factor], times
    the diagonal matrix of the weights: when [damp_factor <> 0] and there
    are [nm_total] weights, [integrator(i, j, ...)] has returned some [v],
    and the entry [(k, l)] of the block is [damp_factor * v * damp_diag[k]]
    on the diagonal and 0 off it. *)
Theorem damp_matrix_block (max_degree nr_splines : Z) (t_step damp_factor : Qc)
    (damp_type : DampingMethods) (ddt : Z) (damp_dipole : bool)
    (matrix : ndarray2) (damp_diag : vector) (i j k l : Z) :
  damp_matrix' max_degree nr_splines t_step damp_factor damp_type ddt
    damp_dipole = Ok (matrix, damp_diag) ->
  damp_factor <> 0%Qc ->
  Z.of_nat (length damp_diag) = nm_total max_degree ->
  0 <= i < nr_splines -> 0 <= j < nr_splines -> Z.abs (i - j) <= 3 ->
  0 <= k < nm_total max_degree -> 0 <= l < nm_total max_degree ->
  exists v,
    integrator' i j nr_splines t_step ddt = Ok v
    /\ entry matrix (Z.to_nat (i * nm_total max_degree + k))
                    (Z.to_nat (j * nm_total max_degree + l))
       = Some (damp_factor * v
               * (if k =? l then default 0%Qc (damp_diag !! Z.to_nat k)
                  else 0%Qc))%Qc.
Proof.
  intros H Hc Hlen Hi Hj Hband Hk Hl.
  assert ((i, j) ∈ band_pairs nr_splines) as Hin
    by (apply elem_of_band_pairs; lia).
  pose proof (damp_matrix_entry _ _ _ _ _ _ _ _ _ _ _ _
                (Z.to_nat (i * nm_total max_degree + k))
                (Z.to_nat (j * nm_total max_degree + l)) H) as Hentry.
  apply damp_matrix_inv in H as (Hn & [(Hc0 & _)|(_ & _ & Hfold)]); [done|].
  destruct (fold_write_block_integrals _ _ _ _ _ _ _ _ _ (i, j) Hfold Hin)
    as [v Hv]. simpl in Hv.
  exists v. split; [done|].
  rewrite Hentry by nia. f_equal.
  rewrite !Z2Nat.id by nia.
  assert ((i * nm_total max_degree + k) / nm_total max_degree = i) as Ei
    by (apply div_block; lia).
  assert ((j * nm_total max_degree + l) / nm_total max_degree = j) as Ej
    by (apply div_block; lia).
  rewrite Ei, Ej. rewrite bool_decide_eq_true_2 by done.
  unfold block_value, integral.
  rewrite !Z2Nat.id, Ei, Ej, Hv by nia.
  rewrite !mod_block, Ei, Ej by lia.
  rewrite bcast_get_diag by lia.
  replace (i * nm_total max_degree + k - i * nm_total max_degree) with k
    by lia.
  replace (j * nm_total max_degree + l - j * nm_total max_degree) with l
    by lia.
  done.
Qed.

(** X6. With damping enabled the weight vector comes from [dampingtype]:
    the vector that is returned is the one [dampingtype] returned, and an
    exception of [dampingtype] is raised by [damp_matrix], which then
    returns no matrix. *)
Theorem damp_matrix_weights (max_degree nr_splines : Z) (t_step damp_factor : Qc)
    (damp_type : DampingMethods) (ddt : Z) (damp_dipole : bool) :
  damp_factor <> 0%Qc ->
  (forall (matrix : ndarray2) (damp_diag : vector),
      damp_matrix' max_degree nr_splines t_step damp_factor damp_type ddt
        damp_dipole = Ok (matrix, damp_diag) ->
      dampingtype max_degree damp_type damp_dipole = Ok damp_diag)
  /\ (forall e : exn,
        0 <= nm_total max_degree * nr_splines ->
        dampingtype max_degree damp_type damp_dipole = Raise e ->
        damp_matrix' max_degree nr_splines t_step damp_factor damp_type ddt
          damp_dipole = Raise e).
Proof.
  intros Hc. split.
  - intros matrix damp_diag H.
    by apply damp_matrix_inv in H as (_ & [(Hc0 & _)|(_ & Hd & _)]).
  - intros e Hn He. unfold damp_matrix. rewrite np_zeros2_Ok by done.
    rewrite bind_Ok. destruct (decide (damp_factor <> 0%Qc)); [|done].
    by rewrite He.
Qed.

(** X7. With at most 3 splines the returned matrix is all-zero, whatever
    the damping factor and the weights: every overlap integral is over an
    empty range of intervals. And [damp_matrix] does return on such a call
    when it is valid. *)
Theorem damp_matrix_few_splines (max_degree nr_splines : Z)
    (t_step damp_factor : Qc) (damp_type : DampingMethods) (ddt : Z)
    (damp_dipole : bool) :
  nr_splines <= 3 ->
  (forall (matrix : ndarray2) (damp_diag : vector),
      damp_matrix' max_degree nr_splines t_step damp_factor damp_type ddt
        damp_dipole = Ok (matrix, damp_diag) ->
      forall a b : nat,
        (a < Z.to_nat (nm_total max_degree * nr_splines))%nat ->
        (b < Z.to_nat (nm_total max_degree * nr_splines))%nat ->
        entry matrix a b = Some 0%Qc)
  /\ (valid_call' max_degree nr_splines t_step damp_type ddt damp_dipole ->
      exists matrix damp_diag,
        damp_matrix' max_degree nr_splines t_step damp_factor damp_type ddt
          damp_dipole = Ok (matrix, damp_diag)).
Proof.
  intros Hnr. split; [|apply valid_call_returns].
  intros matrix damp_diag H a b Ha Hb.
  rewrite (damp_matrix_entry _ _ _ _ _ _ _ _ _ _ _ _ a b H Ha Hb). f_equal.
  case_bool_decide as Hd; [|done].
  unfold block_value, integral.
  destruct (integrator' _ _ _ _ _) as [v|e] eqn:E; [|ring].
  apply integrator_empty_value in E as ->; [ring|].
  unfold low, high, spl_degree. lia.
Qed.

Lemma band_pairs_first (nr_splines : Z) :
  1 <= nr_splines -> exists l, band_pairs nr_splines = (0, 0) :: l.
Proof.
  intros H. unfold band_pairs, band.
  destruct (range_first 0 nr_splines) as [l ->]; [lia|].
  rewrite bind_cons.
  destruct (range_first (Z.max 0 (0 - spl_degree))
              (Z.min (0 + spl_degree + 1) nr_splines)) as [l' ->];
    [unfold spl_degree; lia|].
  rewrite fmap_cons. by eexists.
Qed.

(** The first block that the loops write is the block [(0, 0)]: what the
    write raises, [damp_matrix] raises. *)
Lemma damp_matrix_first_block (max_degree nr_splines : Z)
    (t_step damp_factor : Qc) (damp_type : DampingMethods) (ddt : Z)
    (damp_dipole : bool) (damp_diag : vector) (e : exn) :
  damp_factor <> 0%Qc -> 1 <= nr_splines ->
  0 <= nm_total max_degree * nr_splines ->
  dampingtype max_degree damp_type damp_dipole = Ok damp_diag ->
  write_block' (nm_total max_degree) nr_splines t_step damp_factor ddt
    damp_diag
    (replicate (Z.to_nat (nm_total max_degree * nr_splines))
       (replicate (Z.to_nat (nm_total max_degree * nr_splines)) 0%Qc))
    (0, 0) = Raise e ->
  damp_matrix' max_degree nr_splines t_step damp_factor damp_type ddt
    damp_dipole = Raise e.
Proof.
  intros Hc Hnr Hn Hd Hw. unfold damp_matrix.
  rewrite np_zeros2_Ok by done. rewrite bind_Ok.
  destruct (decide (damp_factor <> 0%Qc)); [|done].
  rewrite Hd, bind_Ok.
  rewrite (foldM_nested
             (write_block' (nm_total max_degree) nr_splines t_step
                damp_factor ddt damp_diag) (band nr_splines)).
  fold (band_pairs nr_splines).
  destruct (band_pairs_first nr_splines Hnr) as [l ->].
  simpl foldM. by rewrite Hw.
Qed.

Lemma assign_block_mismatch (n : nat) (m : ndarray2) (r0 r1 c0 c1 : Z)
    (b : ndarray2) :
  square n m -> 0 <= r0 <= r1 -> r1 <= Z.of_nat n ->
  shape0 b <> r1 - r0 -> shape0 b <> 1 ->
  assign_block m r0 r1 c0 c1 b = Raise ValueError.
Proof.
  intros Hsq Hr Hr1 Hb Hb1. unfold assign_block.
  rewrite (square_shape0 n m Hsq). rewrite !slice_bound_id by lia.
  replace (Z.max 0 (r1 - r0)) with (r1 - r0) by lia.
  destruct (Z.eqb_spec (shape0 b) (r1 - r0)); [done|].
  by destruct (Z.eqb_spec (shape0 b) 1).
Qed.

(** X8. With damping enabled and at least one spline, the first overlap
    integral that is computed is [integrator(0, 0, ...)], and what it raises
    is raised by [damp_matrix]: no matrix is returned. *)
Theorem damp_matrix_integrator_raises (max_degree nr_splines : Z)
    (t_step damp_factor : Qc) (damp_type : DampingMethods) (ddt : Z)
    (damp_dipole : bool) (damp_diag : vector) (e : exn) :
  damp_factor <> 0%Qc -> 1 <= nr_splines -> 0 <= max_degree ->
  dampingtype max_degree damp_type damp_dipole = Ok damp_diag ->
  integrator' 0 0 nr_splines t_step ddt = Raise e ->
  damp_matrix' max_degree nr_splines t_step damp_factor damp_type ddt
    damp_dipole = Raise e.
Proof.
  intros Hc Hnr Hdeg Hd Hi.
  pose proof (nm_total_nonneg max_degree Hdeg) as Hnm.
  eapply damp_matrix_first_block; try done; [nia|].
  unfold write_block. simpl. by rewrite Hi.
Qed.

(** X9. The weights have to be as many as the coefficients: with damping
    enabled and at least one spline, a weight vector from [dampingtype]
    whose length is neither [nm_total] nor 1 cannot be broadcast into the
    first block, and [damp_matrix] raises [ValueError]. *)
Theorem damp_matrix_weights_length (max_degree nr_splines : Z)
    (t_step damp_factor : Qc) (damp_type : DampingMethods) (ddt : Z)
    (damp_dipole : bool) (damp_diag : vector) (v : Qc) :
  damp_factor <> 0%Qc -> 1 <= nr_splines -> 0 <= max_degree ->
  dampingtype max_degree damp_type damp_dipole = Ok damp_diag ->
  Z.of_nat (length damp_diag) <> nm_total max_degree ->
  length damp_diag <> 1%nat ->
  integrator' 0 0 nr_splines t_step ddt = Ok v ->
  damp_matrix' max_degree nr_splines t_step damp_factor damp_type ddt
    damp_dipole = Raise ValueError.
Proof.
  intros Hc Hnr Hdeg Hd Hlen Hlen1 Hi.
  pose proof (nm_total_nonneg max_degree Hdeg) as Hnm.
  eapply damp_matrix_first_block; try done; [nia|].
  unfold write_block. simpl. rewrite Hi, bind_Ok.
  eapply assign_block_mismatch; [apply square_zeros|nia|nia| |].
  - rewrite np_scale2_shape0, np_diag_shape0. lia.
  - rewrite np_scale2_shape0, np_diag_shape0. lia.
Qed.

End MatrixStructure.

(** ** Mirrored entries and the damping factor

    What [damp_matrix] computes for the two entries [(a, b)] and [(b, a)],
    and for one entry under two damping factors, stated on the products the
    code forms, in the order of line 63, with no law of arithmetic
    applied to them. *)

(** Two loops over the same list, whose states stay related: both return,
    in related states, or both raise, the same exception. *)
Lemma foldM_related {A S T : Type} (R : S -> T -> Prop)
    (f : S -> A -> result S) (g : T -> A -> result T) (l : list A)
    (s : S) (t : T) :
  (forall s t x, R s t ->
     match f s x, g t x with
     | Ok s', Ok t' => R s' t'
     | Raise e, Raise e' => e = e'
     | _, _ => False
     end) ->
  R s t ->
  match foldM f l s, foldM g l t with
  | Ok s', Ok t' => R s' t'
  | Raise e, Raise e' => e = e'
  | _, _ => False
  end.
Proof.
  intros Hstep. revert s t.
  induction l as [|x l IH]; intros s t HR; simpl; [done|].
  specialize (Hstep s t x HR).
  destruct (f s x) as [s'|e], (g t x) as [t'|e']; simpl; try done.
  by apply IH.
Qed.

(** Whether a block assignment raises depends on the shapes alone. *)
Lemma assign_block_shapes (n : nat) (m m' : ndarray2) (r0 r1 c0 c1 : Z)
    (b b' : ndarray2) :
  square n m -> square n m' -> shape0 b = shape0 b' -> shape1 b = shape1 b' ->
  match assign_block m r0 r1 c0 c1 b, assign_block m' r0 r1 c0 c1 b' with
  | Ok m1, Ok m1' => square n m1 /\ square n m1'
  | Raise e, Raise e' => e = e'
  | _, _ => False
  end.
Proof.
  intros Hm Hm' H0 H1.
  destruct (assign_block m r0 r1 c0 c1 b) as [m1|e] eqn:E;
    destruct (assign_block m' r0 r1 c0 c1 b') as [m1'|e'] eqn:E';
    [split; [exact (assign_block_square n m m1 _ _ _ _ _ Hm E)
            |exact (assign_block_square n m' m1' _ _ _ _ _ Hm' E')]|..];
    unfold assign_block in E, E';
    rewrite (square_shape0 n m Hm), (square_shape1 n m Hm) in E;
    rewrite (square_shape0 n m' Hm'), (square_shape1 n m' Hm'), <- H0, <- H1
      in E';
    destruct (_ && _); congruence.
Qed.

Section MatrixRounding.

Variable newton_cotes : Z -> result vector.
Variable derivatives : Qc -> Z -> Z -> result ndarray2.
Variable dampingtype : Z -> DampingMethods -> bool -> result vector.

Local Abbreviation integrator' := (integrator newton_cotes derivatives).
Local Abbreviation damp_matrix' :=
  (damp_matrix newton_cotes derivatives dampingtype).
Local Abbreviation write_block' := (write_block newton_cotes derivatives).
Local Abbreviation valid_call' :=
  (valid_call newton_cotes derivatives dampingtype).

(** An entry of a block of the band: the product of line 63. *)
Lemma damp_matrix_band_entry (max_degree nr_splines : Z)
    (t_step damp_factor : Qc) (damp_type : DampingMethods) (ddt : Z)
    (damp_dipole : bool) (matrix : ndarray2) (damp_diag : vector)
    (i j k l : Z) :
  damp_matrix' max_degree nr_splines t_step damp_factor damp_type ddt
    damp_dipole = Ok (matrix, damp_diag) ->
  damp_factor <> 0%Qc ->
  0 <= i < nr_splines -> 0 <= j < nr_splines -> Z.abs (i - j) <= 3 ->
  0 <= k < nm_total max_degree -> 0 <= l < nm_total max_degree ->
  exists v,
    integrator' i j nr_splines t_step ddt = Ok v
    /\ entry matrix (Z.to_nat (i * nm_total max_degree + k))
                    (Z.to_nat (j * nm_total max_degree + l))
       = Some (damp_factor * v * bcast_get (np_diag damp_diag) k l)%Qc.
Proof.
  intros H Hc Hi Hj Hband Hk Hl.
  assert ((i, j) ∈ band_pairs nr_splines) as Hin
    by (apply elem_of_band_pairs; lia).
  pose proof (damp_matrix_entry _ _ _ _ _ _ _ _ _ _ _ _
                (Z.to_nat (i * nm_total max_degree + k))
                (Z.to_nat (j * nm_total max_degree + l)) H) as Hentry.
  apply damp_matrix_inv in H as (Hn & [(Hc0 & _)|(_ & _ & Hfold)]); [done|].
  destruct (fold_write_block_integrals _ _ _ _ _ _ _ _ _ _ _ (i, j) Hfold Hin)
    as [v Hv]. simpl in Hv.
  exists v. split; [done|].
  rewrite Hentry by nia. f_equal.
  rewrite !Z2Nat.id by nia.
  assert ((i * nm_total max_degree + k) / nm_total max_degree = i) as Ei
    by (apply div_block; lia).
  assert ((j * nm_total max_degree + l) / nm_total max_degree = j) as Ej
    by (apply div_block; lia).
  rewrite Ei, Ej. rewrite bool_decide_eq_true_2 by done.
  unfold block_value, integral.
  rewrite !Z2Nat.id, Ei, Ej, Hv by nia.
  rewrite !mod_block, Ei, Ej by lia.
  by replace (i * nm_total max_degree + k - i * nm_total max_degree) with k
       by lia;
     replace (j * nm_total max_degree + l - j * nm_total max_degree) with l
       by lia.
Qed.

(** An entry that no block write reaches. *)
Lemma damp_matrix_zero_entry (max_degree nr_splines : Z)
    (t_step damp_factor : Qc) (damp_type : DampingMethods) (ddt : Z)
    (damp_dipole : bool) (matrix : ndarray2) (damp_diag : vector)
    (i j k l : Z) :
  damp_matrix' max_degree nr_splines t_step damp_factor damp_type ddt
    damp_dipole = Ok (matrix, damp_diag) ->
  0 <= i < nr_splines -> 0 <= j < nr_splines ->
  0 <= k < nm_total max_degree -> 0 <= l < nm_total max_degree ->
  3 < Z.abs (i - j) \/ damp_factor = 0%Qc ->
  entry matrix (Z.to_nat (i * nm_total max_degree + k))
               (Z.to_nat (j * nm_total max_degree + l))
  = Some 0%Qc.
Proof.
  intros H Hi Hj Hk Hl Hzero.
  rewrite (damp_matrix_entry _ _ _ _ _ _ _ _ _ _ _ _ _ _ H) by nia.
  f_equal. case_bool_decide as Hd; [|done].
  destruct Hd as [Hc Hd]. destruct Hzero as [Hfar|Hc0]; [|done].
  rewrite !Z2Nat.id in Hd by nia.
  apply elem_of_band_pairs in Hd as (_ & _ & Hd).
  assert ((i * nm_total max_degree + k) / nm_total max_degree = i) as Ei
    by (apply div_block; lia).
  assert ((j * nm_total max_degree + l) / nm_total max_degree = j) as Ej
    by (apply div_block; lia).
  lia.
Qed.

(** Two calls that differ in a damping factor other than 0 run the same
    loops: both return, with the same weights, or both raise, the same
    exception. *)
Lemma damp_matrix_related (max_degree nr_splines : Z) (t_step c c' : Qc)
    (damp_type : DampingMethods) (ddt : Z) (damp_dipole : bool) :
  c <> 0%Qc -> c' <> 0%Qc ->
  match damp_matrix' max_degree nr_splines t_step c damp_type ddt damp_dipole,
        damp_matrix' max_degree nr_splines t_step c' damp_type ddt damp_dipole
  with
  | Ok r, Ok r' => r.2 = r'.2
  | Raise e, Raise e' => e = e'
  | _, _ => False
  end.
Proof.
  intros Hc Hc'. unfold damp_matrix, np_zeros2.
  destruct (_ || _); [done|]. simpl.
  destruct (decide (c <> 0%Qc)) as [_|?]; [|done].
  destruct (decide (c' <> 0%Qc)) as [_|?]; [|done].
  destruct (dampingtype _ _ _) as [d|e]; simpl; [|done].
  rewrite (foldM_nested
             (write_block' (nm_total max_degree) nr_splines t_step c ddt d)
             (band nr_splines)).
  rewrite (foldM_nested
             (write_block' (nm_total max_degree) nr_splines t_step c' ddt d)
             (band nr_splines)).
  set (dim := Z.to_nat (nm_total max_degree * nr_splines)).
  pose proof (foldM_related (fun m m' => square dim m /\ square dim m')
                (write_block' (nm_total max_degree) nr_splines t_step c ddt d)
                (write_block' (nm_total max_degree) nr_splines t_step c' ddt d)
                (range 0 nr_splines ≫= (fun a => pair a <$> band nr_splines a))
                (replicate dim (replicate dim 0%Qc))
                (replicate dim (replicate dim 0%Qc))) as H.
  destruct (foldM _ _ _) as [m|e], (foldM _ _ _) as [m'|e']; simpl;
    try done; apply H; try (split; apply square_zeros);
    intros s s' p [Hs Hs']; unfold write_block;
    (destruct (integrator' _ _ _ _ _) as [v|ev]; simpl; [|done]);
    apply assign_block_shapes; try done;
    by rewrite ?np_scale2_shape0, ?np_scale2_shape1.
Qed.


(** C5, amended. For a factor [c <> 0], [damp_matrix] with
    [damp_factor = c] raises what it raises with [damp_factor = 1], and
    returns when it returns with [damp_factor = 1], with the same weights.
    The entry [(k, l)] of a block [(i, j)] of the band is the product
    [c * v * w] where it is [1 * v * w] with [damp_factor = 1], [v] being
    the value that [integrator(i, j, ...)] returned and [w] the weight;
    outside the band both entries are 0. *)
Theorem damp_matrix_linear (max_degree nr_splines : Z) (t_step c : Qc)
    (damp_type : DampingMethods) (ddt : Z) (damp_dipole : bool) :
  c <> 0%Qc ->
  (forall e : exn,
      damp_matrix' max_degree nr_splines t_step c damp_type ddt damp_dipole
      = Raise e
      <-> damp_matrix' max_degree nr_splines t_step 1%Qc damp_type ddt
            damp_dipole = Raise e)
  /\ (forall (matrix1 : ndarray2) (damp_diag : vector),
        damp_matrix' max_degree nr_splines t_step 1%Qc damp_type ddt
          damp_dipole = Ok (matrix1, damp_diag) ->
        exists matrix : ndarray2,
          damp_matrix' max_degree nr_splines t_step c damp_type ddt
            damp_dipole = Ok (matrix, damp_diag)
          /\ forall i j k l : Z,
               0 <= i < nr_splines -> 0 <= j < nr_splines ->
               0 <= k < nm_total max_degree ->
               0 <= l < nm_total max_degree ->
               (3 < Z.abs (i - j) ->
                entry matrix1 (Z.to_nat (i * nm_total max_degree + k))
                              (Z.to_nat (j * nm_total max_degree + l))
                = Some 0%Qc
                /\ entry matrix (Z.to_nat (i * nm_total max_degree + k))
                                (Z.to_nat (j * nm_total max_degree + l))
                   = Some 0%Qc)
               /\ (Z.abs (i - j) <= 3 ->
                   Z.of_nat (length damp_diag) = nm_total max_degree ->
                   exists v : Qc,
                     integrator' i j nr_splines t_step ddt = Ok v
                     /\ entry matrix1
                          (Z.to_nat (i * nm_total max_degree + k))
                          (Z.to_nat (j * nm_total max_degree + l))
                        = Some (1 * v
                                * (if k =? l
                                   then default 0%Qc
                                          (damp_diag !! Z.to_nat k)
                                   else 0%Qc))%Qc
                     /\ entry matrix
                          (Z.to_nat (i * nm_total max_degree + k))
                          (Z.to_nat (j * nm_total max_degree + l))
                        = Some (c * v
                                * (if k =? l
                                   then default 0%Qc
                                          (damp_diag !! Z.to_nat k)
                                   else 0%Qc))%Qc)).
Proof.
  intros Hc.
  assert (1%Qc <> 0%Qc) as H1 by (intros E; discriminate (f_equal this E)).
  pose proof (damp_matrix_related max_degree nr_splines t_step c 1%Qc
                damp_type ddt damp_dipole Hc H1) as Hrel.
  split.
  - intros e.
    destruct (damp_matrix' _ _ _ c _ _ _) as [r|ec],
             (damp_matrix' _ _ _ 1%Qc _ _ _) as [r'|e1]; try done.
    subst e1. done.
  - intros matrix1 damp_diag E1. rewrite E1 in Hrel.
    destruct (damp_matrix' _ _ _ c _ _ _) as [[matrix d]|ec] eqn:Ec;
      [|done].
    simpl in Hrel. subst d. exists matrix. split; [done|].
    intros i j k l Hi Hj Hk Hl. split.
    + intros Hfar.
      split; eapply damp_matrix_zero_entry; try done; by left.
    + intros Hband Hlen.
      destruct (damp_matrix_band_entry _ _ _ _ _ _ _ _ _ i j k l E1 H1)
        as (v & Hv & ->); [done|done|lia|done|done|].
      destruct (damp_matrix_band_entry _ _ _ _ _ _ _ _ _ i j k l Ec Hc)
        as (v' & Hv' & ->); [done|done|lia|done|done|].
      rewrite Hv in Hv'. injection Hv' as <-.
      exists v. split; [done|].
      by rewrite !bcast_get_diag by lia.
Qed.

End MatrixRounding.

(** ** The damping norm *)

Lemma norm_at_padding (damp_fac spl : vector) (pad coeff : ndarray2) (i : Z) :
  length pad = 3%nat -> 0 <= i -> i + 4 <= Z.of_nat (length coeff) ->
  norm_at damp_fac spl (pad ++ coeff) (3 + i) = norm_at damp_fac spl coeff i.
Proof.
  intros Hpad H0 H1. unfold norm_at.
  rewrite !np_slice_window by (rewrite ?length_app; lia).
  rewrite drop_app_ge by lia.
  by replace (Z.to_nat (3 + i) - length pad)%nat with (Z.to_nat i) by lia.
Qed.

Lemma norm_at_weights_mismatch (nm : nat) (damp_fac spl : vector)
    (coeffsp : ndarray2) (t : Z) :
  length damp_fac <> nm -> length spl = 4%nat ->
  Forall (fun row => length row = nm) coeffsp ->
  0 <= t -> t + 4 <= Z.of_nat (length coeffsp) ->
  norm_at damp_fac spl coeffsp t = Raise ValueError.
Proof.
  intros Hfac Hspl Hrect H0 H1. unfold norm_at.
  rewrite np_slice_window by done.
  destruct (np_matmul_Ok nm spl (take 4 (drop (Z.to_nat t) coeffsp)))
    as (g & -> & Hg).
  - rewrite length_take, length_drop. lia.
  - intros E.
    assert (length (take 4 (drop (Z.to_nat t) coeffsp)) = 4%nat) as Hl
      by (rewrite length_take, length_drop; lia).
    by rewrite E in Hl.
  - by apply Forall_take, Forall_drop.
  - simpl. unfold np_dot. rewrite length_fmap, Hg.
    by destruct (Nat.eqb_spec (length damp_fac) nm).
Qed.

Lemma np_zeros_Ok (n : nat) :
  np_zeros (Z.of_nat n) = Ok (replicate n 0%Qc).
Proof.
  unfold np_zeros. destruct (Z.ltb_spec (Z.of_nat n) 0); [lia|].
  by rewrite Nat2Z.id.
Qed.

Lemma np_zeros2_pad (k : nat) :
  np_zeros2 spl_degree (Z.of_nat k) = Ok (replicate 3 (replicate k 0%Qc)).
Proof.
  unfold np_zeros2. destruct (Z.ltb_spec (Z.of_nat k) 0); [lia|].
  by rewrite Nat2Z.id.
Qed.

Lemma damp_norm_loop_unfold (nm : nat) (damp_fac spl : vector)
    (coeff : ndarray2) :
  coeff <> [] -> Forall (fun row => length row = nm) coeff ->
  damp_norm_loop damp_fac spl coeff
  = foldM (fun norm t =>
             x ← norm_at damp_fac spl
                   (replicate 3 (replicate nm 0%Qc) ++ coeff) t;
             np_setitem norm t x)
          (range 0 (Z.of_nat (length coeff)))
          (replicate (length coeff) 0%Qc).
Proof.
  intros Hne Hrect. unfold damp_norm_loop. rewrite np_zeros_Ok, bind_Ok.
  assert (0 < length coeff)%nat as HT by (destruct coeff; [done|simpl; lia]).
  destruct (np_index_Ok coeff 0) as (row0 & -> & Hrow0); [lia|].
  rewrite bind_Ok.
  assert (length row0 = nm) as ->.
  { rewrite Forall_lookup in Hrect. by eapply Hrect. }
  by rewrite np_zeros2_pad, bind_Ok.
Qed.

Section NormStructure.

Variable derivatives : Qc -> Z -> Z -> result ndarray2.

Local Abbreviation damp_norm' := (damp_norm derivatives).

(** X10. The zero padding does not enter what [damp_norm] returns: for
    [t_step <> 0], the entry [i] of the result is computed from the rows
    [i] to [i + 3] of the series itself, as the weighted sum of the squares
    of their combination with the stencil, divided by [t_step]. *)
Theorem damp_norm_windows (nm : nat) (damp_fac : vector) (coeff : ndarray2)
    (ddt : Z) (t_step : Qc) (tbl : ndarray2) :
  length damp_fac = nm ->
  Forall (fun row => length row = nm) coeff ->
  (1 <= length coeff)%nat ->
  t_step <> 0%Qc ->
  derivatives t_step 1 ddt = Ok tbl -> length (concat tbl) = 4%nat ->
  exists r : vector,
    damp_norm' damp_fac coeff ddt t_step = Ok r
    /\ length r = (length coeff - 3)%nat
    /\ forall i : nat,
         (i < length coeff - 3)%nat ->
         exists x,
           norm_at damp_fac (concat tbl) coeff (Z.of_nat i) = Ok x
           /\ r !! i = Some (x / t_step)%Qc.
Proof.
  intros Hfac Hrect HT Hstep Hd Hspl.
  destruct (damp_norm_loop_spec nm damp_fac (concat tbl) coeff)
    as (norm & Hloop & Hlen & Hget); try done.
  { intros ->. simpl in HT. lia. }
  exists ((fun x => x / t_step)%Qc <$> drop 3 norm). split; [|split].
  - unfold damp_norm. rewrite Hd, bind_Ok, Hloop, bind_Ok.
    by rewrite np_slice_from_3.
  - by rewrite length_fmap, length_drop, Hlen.
  - intros i Hi. destruct (Hget (3 + i)%nat) as (x & Hx & Hn & _); [lia|].
    exists x. split.
    + rewrite <- Hx. rewrite Nat2Z.inj_add. symmetry.
      apply norm_at_padding; [by rewrite length_replicate|lia|lia].
    + by rewrite list_lookup_fmap, lookup_drop, Hn.
Qed.

(** X13. The weights have to be as many as the columns of the series: on a
    series of at least one row, a weight vector of another length makes
    [np.dot] raise [ValueError] in the first step of the loop. *)
Theorem damp_norm_weights_length (nm : nat) (damp_fac : vector)
    (coeff : ndarray2) (ddt : Z) (t_step : Qc) (tbl : ndarray2) :
  length damp_fac <> nm ->
  Forall (fun row => length row = nm) coeff ->
  (1 <= length coeff)%nat ->
  derivatives t_step 1 ddt = Ok tbl -> length (concat tbl) = 4%nat ->
  damp_norm' damp_fac coeff ddt t_step = Raise ValueError.
Proof.
  intros Hfac Hrect HT Hd Hspl. unfold damp_norm. rewrite Hd, bind_Ok.
  rewrite (damp_norm_loop_unfold nm);
    [|intros ->; simpl in HT; lia|done].
  destruct (range_first 0 (Z.of_nat (length coeff))) as [l ->]; [lia|].
  simpl foldM.
  rewrite (norm_at_weights_mismatch nm); try done.
  - repeat (constructor; [apply length_replicate|]). done.
  - simpl. lia.
Qed.

End NormStructure.

(** ** The further properties on the reference instance *)

Lemma reference_valid_call_3 :
  valid_call Reference.newton_cotes Reference.derivatives
    Reference.dampingtype 1 3 1%Qc Uniform 0 true.
Proof.
  unfold valid_call.
  split; [lia|]. split; [lia|]. split; [lia|].
  split; [apply reference_quadrature_ready_0|].
  eexists. split; reflexivity.
Qed.

Lemma integrator_interior_shift_witness :
  Reference.integrator (3 + 1) (5 + 1) 12 (Reference.q 1 2) 1
  = Reference.integrator 3 5 12 (Reference.q 1 2) 1.
Proof.
  apply (integrator_interior_shift Reference.newton_cotes
           Reference.derivatives 3 5 12 (Reference.q 1 2) 1); simpl; lia.
Defined.

Lemma integrator_few_splines_witness :
  Reference.integrator 0 2 3 (Reference.q 1 2) 1 = Ok 0%Qc.
Proof.
  eapply (integrator_few_splines Reference.newton_cotes Reference.derivatives
            0 2 3 (Reference.q 1 2) 1);
    [lia|reflexivity|lia|reflexivity].
Defined.

Lemma damp_matrix_shape_witness :
  exists matrix damp_diag,
    Reference.damp_matrix 1 5 1%Qc (Reference.q 1 1000) Uniform 0 true
    = Ok (matrix, damp_diag)
    /\ Z.of_nat (length matrix) = 15
    /\ Forall (fun row => Z.of_nat (length row) = 15) matrix.
Proof.
  destruct (valid_call_returns Reference.newton_cotes Reference.derivatives
              Reference.dampingtype 1 5 1%Qc (Reference.q 1 1000) Uniform 0
              true reference_valid_call) as (matrix & damp_diag & E).
  exists matrix, damp_diag. split; [exact E|].
  destruct (damp_matrix_shape Reference.newton_cotes Reference.derivatives
              Reference.dampingtype 1 5 1%Qc (Reference.q 1 1000) Uniform 0
              true matrix damp_diag E) as (_ & Hl & Hr).
  split; [exact Hl|exact Hr].
Defined.

Lemma damp_matrix_block_witness :
  exists matrix damp_diag v,
    Reference.damp_matrix 1 5 1%Qc (Reference.q 1 1000) Uniform 0 true
    = Ok (matrix, damp_diag)
    /\ Reference.integrator 3 4 5 1%Qc 0 = Ok v
    /\ entry matrix (Z.to_nat (3 * 3 + 1)) (Z.to_nat (4 * 3 + 1))
       = Some (Reference.q 1 1000 * v * default 0%Qc (damp_diag !! 1%nat))%Qc.
Proof.
  destruct (valid_call_returns Reference.newton_cotes Reference.derivatives
              Reference.dampingtype 1 5 1%Qc (Reference.q 1 1000) Uniform 0
              true reference_valid_call) as (matrix & damp_diag & E).
  assert (Reference.q 1 1000 <> 0%Qc) as Hc
    by (intros H; discriminate (f_equal this H)).
  assert (Z.of_nat (length damp_diag) = nm_total 1) as Hlen.
  { destruct (damp_matrix_inv _ _ _ _ _ _ _ _ _ _ _ _ E)
      as (_ & [(Hc0 & _)|(_ & Hd & _)]); [done|].
    injection Hd as <-. reflexivity. }
  destruct (damp_matrix_block Reference.newton_cotes Reference.derivatives
              Reference.dampingtype 1 5 1%Qc (Reference.q 1 1000) Uniform 0
              true matrix damp_diag 3 4 1 1 E Hc Hlen)
    as (v & Hv & Hentry); [lia|lia|simpl; lia|unfold nm_total; lia
                          |unfold nm_total; lia|].
  exists matrix, damp_diag, v. split; [exact E|]. split; [exact Hv|exact Hentry].
Defined.

Lemma damp_matrix_weights_witness :
  (exists matrix damp_diag,
      Reference.damp_matrix 1 5 1%Qc (Reference.q 1 1000) Uniform 0 true
      = Ok (matrix, damp_diag)
      /\ Reference.dampingtype 1 Uniform true = Ok damp_diag)
  /\ Reference.damp_matrix 1 5 1%Qc (Reference.q 1 1000) Gubbins 0 true
     = Raise CollaboratorError.
Proof.
  assert (Reference.q 1 1000 <> 0%Qc) as Hc
    by (intros H; discriminate (f_equal this H)).
  split.
  - destruct (valid_call_returns Reference.newton_cotes Reference.derivatives
                Reference.dampingtype 1 5 1%Qc (Reference.q 1 1000) Uniform 0
                true reference_valid_call) as (matrix & damp_diag & E).
    exists matrix, damp_diag. split; [exact E|].
    exact (proj1 (damp_matrix_weights Reference.newton_cotes
                    Reference.derivatives Reference.dampingtype 1 5 1%Qc
                    (Reference.q 1 1000) Uniform 0 true Hc)
             matrix damp_diag E).
  - apply (proj2 (damp_matrix_weights Reference.newton_cotes
                    Reference.derivatives Reference.dampingtype 1 5 1%Qc
                    (Reference.q 1 1000) Gubbins 0 true Hc));
      [unfold nm_total; lia|reflexivity].
Defined.

Lemma damp_matrix_few_splines_witness :
  exists matrix damp_diag,
    Reference.damp_matrix 1 3 1%Qc (Reference.q 1 1000) Uniform 0 true
    = Ok (matrix, damp_diag)
    /\ forall a b : nat, (a < 9)%nat -> (b < 9)%nat ->
                         entry matrix a b = Some 0%Qc.
Proof.
  destruct (damp_matrix_few_splines Reference.newton_cotes
              Reference.derivatives Reference.dampingtype 1 3 1%Qc
              (Reference.q 1 1000) Uniform 0 true) as [Hzero Hret]; [lia|].
  destruct (Hret reference_valid_call_3) as (matrix & damp_diag & E).
  exists matrix, damp_diag. split; [exact E|].
  intros a b Ha Hb. exact (Hzero matrix damp_diag E a b Ha Hb).
Defined.

Lemma damp_matrix_integrator_raises_witness :
  Reference.damp_matrix 1 5 1%Qc (Reference.q 1 1000) Uniform 7 true
  = Raise CollaboratorError.
Proof.
  eapply (damp_matrix_integrator_raises Reference.newton_cotes
            Reference.derivatives Reference.dampingtype 1 5 1%Qc
            (Reference.q 1 1000) Uniform 7 true).
  - intros H. discriminate (f_equal this H).
  - lia.
  - lia.
  - reflexivity.
  - reflexivity.
Defined.

Lemma damp_matrix_weights_length_witness :
  damp_matrix Reference.newton_cotes Reference.derivatives
    (fun _ _ _ => Ok [1; 1]%Qc) 1 5 1%Qc (Reference.q 1 1000) Uniform 0 true
  = Raise ValueError.
Proof.
  eapply (damp_matrix_weights_length Reference.newton_cotes
            Reference.derivatives (fun _ _ _ => Ok [1; 1]%Qc) 1 5 1%Qc
            (Reference.q 1 1000) Uniform 0 true).
  - intros H. discriminate (f_equal this H).
  - lia.
  - lia.
  - reflexivity.
  - simpl. unfold nm_total. lia.
  - simpl. lia.
  - reflexivity.
Defined.

Lemma damp_norm_windows_witness :
  exists r : vector,
    Reference.damp_norm [1; 1; 1]%Qc
      [[1; 1; 1]; [1; 1; 1]; [1; 1; 1]; [1; 1; 1]; [1; 0; 1]]%Qc 2
      (Reference.q 1 2) = Ok r
    /\ length r = 2%nat.
Proof.
  edestruct (damp_norm_windows Reference.derivatives 3 [1; 1; 1]%Qc
               [[1; 1; 1]; [1; 1; 1]; [1; 1; 1]; [1; 1; 1]; [1; 0; 1]]%Qc 2
               (Reference.q 1 2))
    as (r & Hret & Hlen & _).
  - reflexivity.
  - repeat constructor.
  - simpl. lia.
  - intros H. discriminate (f_equal this H).
  - reflexivity.
  - reflexivity.
  - exists r. split; [exact Hret|exact Hlen].
Defined.

Lemma damp_norm_weights_length_witness :
  Reference.damp_norm [1; 1]%Qc [[1; 1; 1]; [1; 0; 1]]%Qc 0 1%Qc
  = Raise ValueError.
Proof.
  eapply (damp_norm_weights_length Reference.derivatives 3 [1; 1]%Qc
            [[1; 1; 1]; [1; 0; 1]]%Qc 0 1%Qc).
  - simpl. lia.
  - repeat constructor.
  - simpl. lia.
  - reflexivity.
  - reflexivity.
Defined.

(** ** Mirrored entries and the damping factor, on concrete inputs *)



(** The same at [damp_factor = 1e-3], the end-to-end example of the
    specification ([0x1.0624dd2f1a9fcp-10] is the binary64 number that
    [1e-3] denotes): 1.9841269841269836e-07 and 1.984126984126984e-07. *)
Example end_to_end_example_binary64 :
  exists (matrix : Binary64.ndarray2) (damp_diag : Binary64.vector),
    Binary64.damp_matrix Binary64.newton_cotes Binary64.derivatives
      Binary64.dampingtype 1 5 1 0x1.0624dd2f1a9fcp-10 Uniform 0 true
    = Ok (matrix, damp_diag)
    /\ Binary64.entry matrix 0 9 = Some 0x1.aa1688d518950p-23%float
    /\ Binary64.entry matrix 9 0 = Some 0x1.aa1688d518951p-23%float
    /\ (0x1.aa1688d518950p-23 =? 0x1.aa1688d518951p-23)%float = false.
Proof.
  eexists _, _. split; [vm_compute; reflexivity|].
  split; [reflexivity|]. split; reflexivity.
Qed.

Lemma damp_matrix_linear_witness :
  exists (matrix1 matrix : ndarray2) (damp_diag : vector) (v : Qc),
    Reference.damp_matrix 1 5 1%Qc 1%Qc Uniform 0 true
    = Ok (matrix1, damp_diag)
    /\ Reference.damp_matrix 1 5 1%Qc (Reference.q 1 1000) Uniform 0 true
       = Ok (matrix, damp_diag)
    /\ Reference.integrator 3 4 5 1%Qc 0 = Ok v
    /\ entry matrix1 (Z.to_nat (3 * 3 + 1)) (Z.to_nat (4 * 3 + 1))
       = Some (1 * v * default 0%Qc (damp_diag !! 1%nat))%Qc
    /\ entry matrix (Z.to_nat (3 * 3 + 1)) (Z.to_nat (4 * 3 + 1))
       = Some (Reference.q 1 1000 * v
               * default 0%Qc (damp_diag !! 1%nat))%Qc.
Proof.
  assert (Reference.q 1 1000 <> 0%Qc) as Hc
    by (intros H; discriminate (f_equal this H)).
  destruct (damp_matrix_linear Reference.newton_cotes Reference.derivatives
              Reference.dampingtype 1 5 1%Qc (Reference.q 1 1000) Uniform 0
              true Hc) as [_ Hlin].
  destruct (valid_call_returns Reference.newton_cotes Reference.derivatives
              Reference.dampingtype 1 5 1%Qc 1%Qc Uniform 0 true
              reference_valid_call) as (matrix1 & damp_diag & E1).
  assert (Z.of_nat (length damp_diag) = nm_total 1) as Hlen.
  { destruct (damp_matrix_inv _ _ _ _ _ _ _ _ _ _ _ _ E1)
      as (_ & [(Hc0 & _)|(_ & Hd & _)]);
      [discriminate (f_equal this Hc0)|].
    injection Hd as <-. reflexivity. }
  destruct (Hlin matrix1 damp_diag E1) as (matrix & E & Hentries).
  destruct (Hentries 3 4 1 1) as [_ Hband];
    [lia|lia|unfold nm_total; lia|unfold nm_total; lia|].
  destruct Hband as (v & Hv & He1 & He); [simpl; lia|exact Hlen|].
  exists matrix1, matrix, damp_diag, v.
  split; [exact E1|]. split; [exact E|]. split; [exact Hv|].
  split; [exact He1|exact He].
Defined.

(** In binary64, with the weight 5 for every coefficient
    ([max_degree = 1], [nr_splines = 5], [t_step = 1.0], [ddt = 0]), the
    matrix of [damp_factor = 3.0] is not 3 times the matrix of
    [damp_factor = 1.0]: at [(0, 3)], in the block [(0, 1)], the first has
    [(3 * v) * 5 = 0.3839285714285715] where 3 times the second is
    [3 * ((1 * v) * 5) = 0.38392857142857156]. *)
Lemma damp_matrix_not_linear_binary64 :
  exists (matrix1 matrix : Binary64.ndarray2) (damp_diag : Binary64.vector),
    Binary64.damp_matrix Binary64.newton_cotes Binary64.derivatives
      (Binary64.weights 5) 1 5 1 1 Uniform 0 true
    = Ok (matrix1, damp_diag)
    /\ Binary64.damp_matrix Binary64.newton_cotes Binary64.derivatives
         (Binary64.weights 5) 1 5 1 3 Uniform 0 true
       = Ok (matrix, damp_diag)
    /\ Binary64.entry matrix1 0 3 = Some 0x1.061861861861ap-3%float
    /\ Binary64.entry matrix 0 3 = Some 0x1.8924924924926p-2%float
    /\ (3 * 0x1.061861861861ap-3)%float = 0x1.8924924924927p-2%float
    /\ (0x1.8924924924926p-2 =? 0x1.8924924924927p-2)%float = false.
Proof.
  eexists _, _, _. split; [vm_compute; reflexivity|].
  split; [vm_compute; reflexivity|].
  split; [reflexivity|]. split; [reflexivity|]. split; reflexivity.
Qed.
